(** * REACT-TRANSLATION-APP: the translation request handler of [src/App.jsx]

    A shallow embedding of the [App] component's state and of its event
    handlers ([swapLanguages], [translateText], [clearText], the "Save Key"
    handler) together with the initialiser of the [apiKey] state.

    JavaScript values are modelled as they are at run time: strings are
    sequences of UTF-16 code units, numbers are IEEE-754 binary64 floats,
    response bodies and thrown errors are JSON-like trees.  Handlers are
    programs of a small resumption monad whose effects are the React state
    setters, [console.error], [localStorage.setItem] and the one awaited
    [axios.request]. *)

From Stdlib Require Import List Bool NArith ZArith Ascii String Floats Uint63 Lia.
Import ListNotations.

Set Implicit Arguments.

(** ** JavaScript strings *)

Module JsString.

(** A JavaScript string: a sequence of UTF-16 code units. *)
Definition t := list N.

(** A source literal; every literal of [App.jsx] is plain ASCII. *)
Definition lit (s : string) : t := map N_of_ascii (list_ascii_of_string s).

Definition eqb (a b : t) : bool :=
  if list_eq_dec N.eq_dec a b then true else false.

(** ECMAScript [WhiteSpace] and [LineTerminator] code points, the ones
    [String.prototype.trim] strips.  All of them lie in the basic plane,
    so a test by code unit is exact. *)
Definition is_white_space (c : N) : bool :=
  ((c =? 0x09) || (c =? 0x0A) || (c =? 0x0B) || (c =? 0x0C) || (c =? 0x0D)
   || (c =? 0x20) || (c =? 0xA0) || (c =? 0x1680)
   || ((0x2000 <=? c) && (c <=? 0x200A))
   || (c =? 0x2028) || (c =? 0x2029) || (c =? 0x202F) || (c =? 0x205F)
   || (c =? 0x3000) || (c =? 0xFEFF))%N.

(** [String.prototype.trimStart]. *)
Fixpoint trimStart (s : t) : t :=
  match s with
  | [] => []
  | c :: s' => if is_white_space c then trimStart s' else s
  end.

(** [String.prototype.trimEnd]. *)
Definition trimEnd (s : t) : t := rev (trimStart (rev s)).

(** [String.prototype.trim]. *)
Definition trim (s : t) : t := trimEnd (trimStart s).

(** The string is empty or made of white space only. *)
Definition blank (s : t) : bool := forallb is_white_space s.

End JsString.

Definition jsstring : Type := JsString.t.
Definition js (s : string) : jsstring := JsString.lit s.
Arguments js s%_string.

(** ** JavaScript values *)

(** The values that reach the handlers: the parsed response body, the value
    a rejected request throws, and the contents of the two text areas. *)
#[warnings="-register-all"]
Inductive JsValue : Type :=
| JUndefined
| JNull
| JBool (b : bool)
| JNum (x : float)
| JStr (s : jsstring)
| JArr (elems : list JsValue)
| JObj (props : list (jsstring * JsValue)).

(** [ToBoolean]. *)
Definition truthy (v : JsValue) : bool :=
  match v with
  | JUndefined | JNull => false
  | JBool b => b
  | JNum x => negb (PrimFloat.eqb x 0 || PrimFloat.is_nan x)
  | JStr s => match s with [] => false | _ => true end
  | JArr _ | JObj _ => true
  end.

(** [a || b]. *)
Definition js_or (a b : JsValue) : JsValue := if truthy a then a else b.

(** [v === n] for a number literal [n]: only a number can be strictly equal
    to it, and numbers compare as IEEE-754 values. *)
Definition strict_eq_num (v : JsValue) (n : float) : bool :=
  match v with
  | JNum x => PrimFloat.eqb x n
  | _ => false
  end.

(** Own property lookup in an object literal: the first binding of the key. *)
Fixpoint lookup (k : jsstring) (props : list (jsstring * JsValue)) : JsValue :=
  match props with
  | [] => JUndefined
  | (k', v) :: rest => if JsString.eqb k k' then v else lookup k rest
  end.

(** [v?.k] for the property names the handlers read ([response], [status],
    [data], [translatedText]).  [undefined] and [null] short-circuit to
    [undefined]; an object yields its own property; a boolean, number,
    string or array has no property of any of these names. *)
Definition opt_get (v : JsValue) (k : jsstring) : JsValue :=
  match v with
  | JObj props => lookup k props
  | _ => JUndefined
  end.

Notation "v ?. k" := (opt_get v (js k))
  (at level 40, left associativity, only parsing).

(** A method call [v.trim()]: defined on strings; on any other value of
    this model the property is missing or the receiver is nullish, and the
    call throws a [TypeError] ([None]). *)
Definition call_trim (v : JsValue) : option jsstring :=
  match v with
  | JStr s => Some (JsString.trim s)
  | _ => None
  end.

(** The [TypeError] such a call throws. *)
Definition TypeError : JsValue := JObj [(js "name", JStr (js "TypeError"))].

(** ** Component state *)

(** The [useState] cells of [App].  The two text areas hold whatever was
    last stored in them: [translatedText] receives a field of the response
    body, and [swapLanguages] moves it into [inputText]. *)
Record State : Type := mkState {
  inputText : JsValue;
  translatedText : JsValue;
  sourceLang : jsstring;
  targetLang : jsstring;
  isLoading : bool;
  error : jsstring;
  copied : bool;
  apiKey : jsstring;
  tempKey : jsstring
}.

(** The options object handed to [axios.request]; [data] lists the entries
    given to [URLSearchParams]. *)
Record Request : Type := mkRequest {
  method : jsstring;
  url : jsstring;
  headers : list (jsstring * jsstring);
  data : list (jsstring * JsValue)
}.

(** How the awaited promise settles. *)
Inductive Settled : Type :=
| Fulfilled (response : JsValue)
| Rejected (err : JsValue).

(** What a handler sees and changes outside its own locals: the component
    state, [localStorage], the requests sent so far (latest first) and the
    console. *)
Record World : Type := mkWorld {
  ui : State;
  storage : list (jsstring * jsstring);
  requests : list Request;
  console : list (jsstring * JsValue)
}.

(** ** Effects *)

Inductive Effect : Type :=
| SetInputText (v : JsValue)
| SetTranslatedText (v : JsValue)
| SetSourceLang (s : jsstring)
| SetTargetLang (s : jsstring)
| SetIsLoading (b : bool)
| SetError (s : jsstring)
| SetCopied (b : bool)
| SetApiKey (s : jsstring)
| SetTempKey (s : jsstring)
| StorageSetItem (k v : jsstring)
| ConsoleError (label : jsstring) (v : JsValue).

Definition set_ui (f : State -> State) (w : World) : World :=
  mkWorld (f (ui w)) (storage w) (requests w) (console w).

(** [localStorage.setItem]: the key's binding is replaced. *)
Definition setItem (k v : jsstring) (st : list (jsstring * jsstring))
  : list (jsstring * jsstring) :=
  (k, v) :: filter (fun kv => negb (JsString.eqb k (fst kv))) st.

(** [localStorage.getItem]: the value, or [null]. *)
Fixpoint getItem (k : jsstring) (st : list (jsstring * jsstring)) : JsValue :=
  match st with
  | [] => JNull
  | (k', v) :: rest => if JsString.eqb k k' then JStr v else getItem k rest
  end.

Definition apply_effect (e : Effect) (w : World) : World :=
  match e with
  | SetInputText v =>
      set_ui (fun s => mkState v (translatedText s) (sourceLang s) (targetLang s)
                         (isLoading s) (error s) (copied s) (apiKey s) (tempKey s)) w
  | SetTranslatedText v =>
      set_ui (fun s => mkState (inputText s) v (sourceLang s) (targetLang s)
                         (isLoading s) (error s) (copied s) (apiKey s) (tempKey s)) w
  | SetSourceLang l =>
      set_ui (fun s => mkState (inputText s) (translatedText s) l (targetLang s)
                         (isLoading s) (error s) (copied s) (apiKey s) (tempKey s)) w
  | SetTargetLang l =>
      set_ui (fun s => mkState (inputText s) (translatedText s) (sourceLang s) l
                         (isLoading s) (error s) (copied s) (apiKey s) (tempKey s)) w
  | SetIsLoading b =>
      set_ui (fun s => mkState (inputText s) (translatedText s) (sourceLang s)
                         (targetLang s) b (error s) (copied s) (apiKey s) (tempKey s)) w
  | SetError m =>
      set_ui (fun s => mkState (inputText s) (translatedText s) (sourceLang s)
                         (targetLang s) (isLoading s) m (copied s) (apiKey s) (tempKey s)) w
  | SetCopied b =>
      set_ui (fun s => mkState (inputText s) (translatedText s) (sourceLang s)
                         (targetLang s) (isLoading s) (error s) b (apiKey s) (tempKey s)) w
  | SetApiKey k =>
      set_ui (fun s => mkState (inputText s) (translatedText s) (sourceLang s)
                         (targetLang s) (isLoading s) (error s) (copied s) k (tempKey s)) w
  | SetTempKey k =>
      set_ui (fun s => mkState (inputText s) (translatedText s) (sourceLang s)
                         (targetLang s) (isLoading s) (error s) (copied s) (apiKey s) k) w
  | StorageSetItem k v =>
      mkWorld (ui w) (setItem k v (storage w)) (requests w) (console w)
  | ConsoleError l v =>
      mkWorld (ui w) (storage w) (requests w) ((l, v) :: console w)
  end.

(** ** Handlers as programs *)

(** A handler body: it returns, throws, performs an effect and goes on, or
    awaits the settlement of a request and resumes. *)
Inductive Prog (A : Type) : Type :=
| Ret (a : A)
| Throw (e : JsValue)
| Do (e : Effect) (k : Prog A)
| Await (req : Request) (k : Settled -> Prog A).

Arguments Ret {A} a.
Arguments Throw {A} e.
Arguments Do {A} e k.
Arguments Await {A} req k.

Declare Scope prog_scope.
Delimit Scope prog_scope with prog.

Fixpoint bind {A B : Type} (p : Prog A) (f : A -> Prog B) : Prog B :=
  match p with
  | Ret a => f a
  | Throw e => Throw e
  | Do e k => Do e (bind k f)
  | Await req k => Await req (fun s => bind (k s) f)
  end.

Notation "x <- p ;; q" := (bind p (fun x => q))
  (at level 61, p at next level, right associativity) : prog_scope.
Notation "p ;; q" := (bind p (fun _ => q))
  (at level 61, right associativity) : prog_scope.

Definition perform (e : Effect) : Prog unit := Do e (Ret tt).

(** [await axios.request(options)]: the response, or the rejection thrown. *)
Definition await_request (options : Request) : Prog JsValue :=
  Await options (fun s =>
    match s with
    | Fulfilled response => Ret response
    | Rejected err => Throw err
    end).

(** [try { body } catch (err) { handler err }]. *)
Fixpoint try_catch {A : Type} (body : Prog A) (handler : JsValue -> Prog A) : Prog A :=
  match body with
  | Ret a => Ret a
  | Throw e => handler e
  | Do e k => Do e (try_catch k handler)
  | Await req k => Await req (fun s => try_catch (k s) handler)
  end.

(** [try { body } finally { final }]: [final] runs however [body] ends,
    and the completion of [body] stands unless [final] throws. *)
Fixpoint try_finally {A : Type} (body : Prog A) (final : Prog unit) : Prog A :=
  match body with
  | Ret a => bind final (fun _ => Ret a)
  | Throw e => bind final (fun _ => Throw e)
  | Do e k => Do e (try_finally k final)
  | Await req k => Await req (fun s => try_finally (k s) final)
  end.

(** How an invocation ends. *)
Inductive Completion (A : Type) : Type :=
| Returned (a : A)
| Threw (e : JsValue).

Arguments Returned {A} a.
Arguments Threw {A} e.

(** Running a handler.  [net] settles each request; [env] is whatever other
    handlers do to the world while the request is outstanding (the identity
    when nothing else happens). *)
Fixpoint run {A : Type} (p : Prog A) (net : Request -> Settled)
         (env : World -> World) (w : World) : World * Completion A :=
  match p with
  | Ret a => (w, Returned a)
  | Throw e => (w, Threw e)
  | Do e k => run k net env (apply_effect e w)
  | Await req k =>
      let sent := mkWorld (ui w) (storage w) (req :: requests w) (console w) in
      run (k (net req)) net env (env sent)
  end.

Definition quiet : World -> World := fun w => w.

(** ** The component's handlers

    Each handler is a closure over the state of the render it was created
    in ([c] below); its setters act on the state of the moment. *)

Section Handlers.

Local Open Scope prog_scope.

Variable c : State.

(** [useState('')], [useState('en')], ... : the initial cells, given the
    initial credential. *)
Definition initialState (key : jsstring) : State :=
  mkState (JStr (js "")) (JStr (js "")) (js "en") (js "es") false (js "")
          false key (js "").

Definition swapLanguages : Prog unit :=
  perform (SetSourceLang (targetLang c)) ;;
  perform (SetTargetLang (sourceLang c)) ;;
  perform (SetInputText (translatedText c)) ;;
  perform (SetTranslatedText (inputText c)).

Definition msg_empty_input : jsstring :=
  js "Please enter some text to translate".
Definition msg_missing_key : jsstring :=
  js "Missing RapidAPI key. Enter your key below and click Save, or add VITE_RAPIDAPI_KEY as a build secret.".
Definition msg_authorization : jsstring :=
  js "Authorization failed (401/403). Ensure your RapidAPI key is valid and you are subscribed to text-translator2 (free plan)".
Definition msg_rate_limit : jsstring :=
  js "Rate limit exceeded (429). Please wait and try again.".
Definition msg_failed : jsstring :=
  js "Failed to translate. Please try again later.".

Definition options : Request :=
  mkRequest
    (js "POST")
    (js "https://text-translator2.p.rapidapi.com/translate")
    [ (js "content-type", js "application/x-www-form-urlencoded");
      (js "X-RapidAPI-Key", apiKey c);
      (js "X-RapidAPI-Host", js "text-translator2.p.rapidapi.com") ]
    [ (js "source_language", JStr (sourceLang c));
      (js "target_language", JStr (targetLang c));
      (js "text", inputText c) ].

(** The [catch (err)] block of [translateText]. *)
Definition on_error (err : JsValue) : Prog unit :=
  perform (ConsoleError (js "Translation error:") err) ;;
  if strict_eq_num (err ?. "response" ?. "status") 401
     || strict_eq_num (err ?. "response" ?. "status") 403
  then perform (SetError msg_authorization)
  else if strict_eq_num (err ?. "response" ?. "status") 429
  then perform (SetError msg_rate_limit)
  else perform (SetError msg_failed).

Definition translateText : Prog unit :=
  match call_trim (inputText c) with
  | None => Throw TypeError
  | Some trimmed =>
      if negb (truthy (JStr trimmed)) then
        perform (SetError msg_empty_input)
      else if negb (truthy (JStr (apiKey c))) then
        perform (SetError msg_missing_key)
      else
        perform (SetIsLoading true) ;;
        perform (SetError (js "")) ;;
        try_finally
          (try_catch
             (response <- await_request options ;;
              perform (SetTranslatedText
                         (js_or (response ?. "data" ?. "data" ?. "translatedText")
                                (JStr (js "")))))
             on_error)
          (perform (SetIsLoading false))
  end.

Definition clearText : Prog unit :=
  perform (SetInputText (JStr (js ""))) ;;
  perform (SetTranslatedText (JStr (js ""))) ;;
  perform (SetError (js "")).

(** The [onClick] of the "Save Key" button. *)
Definition saveKey : Prog unit :=
  let k := JsString.trim (tempKey c) in
  if negb (truthy (JStr k)) then Ret tt
  else
    perform (StorageSetItem (js "rapidapi_key") k) ;;
    perform (SetApiKey k) ;;
    perform (SetTempKey (js "")) ;;
    perform (SetError (js "")).

End Handlers.

(** The initialiser of the [apiKey] cell:
    [(import.meta.env.VITE_RAPIDAPI_KEY || localStorage.getItem('rapidapi_key') || '').trim()].
    The build-time value is a string or [undefined] ([None]); [None] as a
    result stands for a [TypeError]. *)
Definition initialApiKey (VITE_RAPIDAPI_KEY : option jsstring)
           (localStorage : list (jsstring * jsstring)) : option jsstring :=
  let injected :=
    match VITE_RAPIDAPI_KEY with Some s => JStr s | None => JUndefined end in
  call_trim (js_or (js_or injected (getItem (js "rapidapi_key") localStorage))
                   (JStr (js ""))).

(** Invoking a handler from the interface: the closure is the one of the
    current render. *)
Definition invoke (h : State -> Prog unit) (net : Request -> Settled)
           (env : World -> World) (w : World) : World * Completion unit :=
  run (h (ui w)) net env w.

(** ** The specification's vocabulary *)

(** The error kinds of the specification. *)
Inductive Failure : Type :=
| EmptyInput
| MissingCredential
| AuthorizationFailed
| RateLimited
| TranslationFailed.

(** The message that reports each kind in the [error] cell. *)
Definition message (f : Failure) : jsstring :=
  match f with
  | EmptyInput => msg_empty_input
  | MissingCredential => msg_missing_key
  | AuthorizationFailed => msg_authorization
  | RateLimited => msg_rate_limit
  | TranslationFailed => msg_failed
  end.

(** An HTTP status code as the number axios stores in [err.response.status]. *)
Definition num_of_Z (n : Z) : float := PrimFloat.of_uint63 (Uint63.of_Z n).

(** [err?.response?.status] for a failed response with the given status,
    or for a transport error, which carries no response. *)
Definition status_value (status : option Z) : JsValue :=
  match status with
  | Some n => JNum (num_of_Z n)
  | None => JUndefined
  end.

(** The specification's classification of a failed request: 401 or 403 is
    an authorization failure, 429 a rate limit, anything else generic. *)
Definition classification (status : option Z) : Failure :=
  match status with
  | Some n =>
      if ((n =? 401) || (n =? 403))%Z then AuthorizationFailed
      else if (n =? 429)%Z then RateLimited
      else TranslationFailed
  | None => TranslationFailed
  end.

(** The specification's precedence of credential sources, a source being
    present when it holds a non-empty string. *)
Definition first_present (injected persisted : option jsstring) : jsstring :=
  match injected with
  | Some (c :: s) => c :: s
  | _ => match persisted with
         | Some (c :: s) => c :: s
         | _ => []
         end
  end.

(** What [localStorage] holds under the credential's key. *)
Definition persisted_key (localStorage : list (jsstring * jsstring)) : option jsstring :=
  match getItem (js "rapidapi_key") localStorage with
  | JStr s => Some s
  | _ => None
  end.

Arguments js : simpl never.

(** The world at the moment the request has been handed to axios. *)
Definition sent (c : State) (w : World) : World :=
  let w1 := apply_effect (SetError (js "")) (apply_effect (SetIsLoading true) w) in
  mkWorld (ui w1) (storage w1) (options c :: requests w1) (console w1).

(** The message the [catch] block chooses. *)
Definition caught_message (err : JsValue) : jsstring :=
  if strict_eq_num (err ?. "response" ?. "status") 401
     || strict_eq_num (err ?. "response" ?. "status") 403
  then msg_authorization
  else if strict_eq_num (err ?. "response" ?. "status") 429
  then msg_rate_limit
  else msg_failed.

(** The status codes a response can carry: three decimal digits. *)
Definition status_codes : list Z := map Z.of_nat (seq 0 1000).

(** On a status code, the [===] tests of the [catch] block agree with the
    comparison of the integers. *)
Definition status_tests_agree (n : Z) : bool :=
  Bool.eqb (strict_eq_num (JNum (num_of_Z n)) 401) (n =? 401)%Z
  && Bool.eqb (strict_eq_num (JNum (num_of_Z n)) 403) (n =? 403)%Z
  && Bool.eqb (strict_eq_num (JNum (num_of_Z n)) 429) (n =? 429)%Z.

Definition whitespace_world : World :=
  mkWorld
    (mkState (JStr [0x20; 0x09; 0xA0; 0x0A]%N) (JStr (js "old")) (js "en") (js "es")
             true (js "") false (js "key") (js ""))
    [] [] [].

Definition keyless_world : World :=
  mkWorld (mkState (JStr (js " Hello ")) (JStr (js "")) (js "en") (js "es")
                   false (js "") false (js "") (js ""))
          [] [] [].

Definition blank_keyless_world : World :=
  mkWorld (mkState (JStr (js "   ")) (JStr (js "old")) (js "fr") (js "de")
                   false (js "") false (js "") (js ""))
          [] [] [].

Definition ready_world : World :=
  mkWorld (mkState (JStr (js "Hello")) (JStr (js "old")) (js "en") (js "es")
                   false (js "stale") false (js "key") (js ""))
          [] [] [].

(** A response whose body is [{"data": {"translatedText": "Hola"}}]. *)
Definition hola_response : JsValue :=
  JObj [ (js "status", JNum 200);
         (js "data",
          JObj [ (js "status", JStr (js "success"));
                 (js "data", JObj [ (js "translatedText", JStr (js "Hola")) ]) ]) ].

(** The error axios throws for a response with the given status. *)
Definition status_error (n : Z) : JsValue :=
  JObj [ (js "message", JStr (js "Request failed"));
         (js "response", JObj [ (js "status", JNum (num_of_Z n)) ]) ].

(** The error axios throws when no response arrived. *)
Definition network_error : JsValue :=
  JObj [ (js "message", JStr (js "Network Error")) ].

(** The failure outcomes of [translateText]: the input text is blank, or
    the credential is missing, or the request is rejected. *)
Definition translate_fails (w : World) (net : Request -> Settled) : Prop :=
  (exists s, inputText (ui w) = JStr s /\ JsString.blank s = true)
  \/ (exists s, inputText (ui w) = JStr s /\ JsString.trim s <> []
                /\ apiKey (ui w) = [])
  \/ (exists s err, inputText (ui w) = JStr s
                    /\ net (options (ui w)) = Rejected err).

(** * The rest of the component

    The language list, what the render enables, the remaining handlers
    ([copyTranslated] and the [onChange] handlers), and the component as a
    machine driven by user events, settled promises and timers. *)

(** ** The language list *)

Record Language : Type := mkLanguage { code : jsstring; name : jsstring }.

Definition LANGUAGES : list Language :=
  [ mkLanguage (js "en") (js "English");
    mkLanguage (js "es") (js "Spanish");
    mkLanguage (js "fr") (js "French");
    mkLanguage (js "de") (js "German");
    mkLanguage (js "it") (js "Italian");
    mkLanguage (js "pt") (js "Portuguese");
    mkLanguage (js "ru") (js "Russian");
    mkLanguage (js "zh") (js "Chinese");
    mkLanguage (js "ja") (js "Japanese");
    mkLanguage (js "hi") (js "Hindi") ].

(** The [value]s of the [option]s both [select]s render:
    [LANGUAGES.map((lang) => <option value={lang.code}>)]. *)
Definition option_values : list jsstring := map code LANGUAGES.

Definition is_option_value (v : jsstring) : bool :=
  existsb (JsString.eqb v) option_values.

(** ** What the render enables *)

(** [disabled={isLoading || !inputText.trim()}] of the Translate button.
    [||] evaluates its right operand only when [isLoading] is false; [None]
    stands for the [TypeError] of calling [trim] on a value without it,
    which makes the render throw. *)
Definition translate_disabled (c : State) : option bool :=
  if isLoading c then Some true
  else match call_trim (inputText c) with
       | Some trimmed => Some (negb (truthy (JStr trimmed)))
       | None => None
       end.

(** [disabled={!translatedText}] of the Copy button. *)
Definition copy_disabled (c : State) : bool := negb (truthy (translatedText c)).

(** [{!apiKey && (...)}]: the banner with the key field and "Save Key". *)
Definition key_banner (c : State) : bool := negb (truthy (JStr (apiKey c))).

(** [{error && (...)}]: the error box. *)
Definition error_box (c : State) : bool := truthy (JStr (error c)).

(** The component renders: nothing else in the JSX can throw. *)
Definition renders (c : State) : bool :=
  match translate_disabled c with Some _ => true | None => false end.

(** ** The [onChange] handlers *)

(** [onChange={(e) => setInputText(e.target.value)}]. *)
Definition changeInputText (value : jsstring) : Prog unit :=
  perform (SetInputText (JStr value)).

(** [onChange={(e) => setSourceLang(e.target.value)}]. *)
Definition changeSourceLang (value : jsstring) : Prog unit :=
  perform (SetSourceLang value).

(** [onChange={(e) => setTargetLang(e.target.value)}]. *)
Definition changeTargetLang (value : jsstring) : Prog unit :=
  perform (SetTargetLang value).

(** [onChange={(e) => setTempKey(e.target.value)}]. *)
Definition changeTempKey (value : jsstring) : Prog unit :=
  perform (SetTempKey value).

(** ** [copyTranslated] *)

(** A handler body that, besides the state setters, awaits
    [navigator.clipboard.writeText] and calls [setTimeout]. *)
Inductive Script : Type :=
| Finish
| Raise (e : JsValue)
| Step (e : Effect) (k : Script)
| WriteText (text : JsValue) (k : Settled -> Script)
| SetTimeout (callback : Prog unit) (ms : N) (k : Script).

(** [first; second]. *)
Fixpoint and_then (first second : Script) : Script :=
  match first with
  | Finish => second
  | Raise e => Raise e
  | Step e k => Step e (and_then k second)
  | WriteText text k => WriteText text (fun s => and_then (k s) second)
  | SetTimeout callback ms k => SetTimeout callback ms (and_then k second)
  end.

(** [try { body } catch (e) { handler e }]. *)
Fixpoint script_try_catch (body : Script) (handler : JsValue -> Script) : Script :=
  match body with
  | Finish => Finish
  | Raise e => handler e
  | Step e k => Step e (script_try_catch k handler)
  | WriteText text k => WriteText text (fun s => script_try_catch (k s) handler)
  | SetTimeout callback ms k => SetTimeout callback ms (script_try_catch k handler)
  end.

(** [await navigator.clipboard.writeText(text)]; a rejection is thrown,
    and so is the [TypeError] of a browser without [navigator.clipboard]. *)
Definition await_writeText (text : JsValue) : Script :=
  WriteText text (fun s =>
    match s with
    | Fulfilled _ => Finish
    | Rejected e => Raise e
    end).

Definition copyTranslated (c : State) : Script :=
  if negb (truthy (translatedText c)) then Finish
  else
    script_try_catch
      (and_then (await_writeText (translatedText c))
         (and_then (Step (SetCopied true) Finish)
            (SetTimeout (perform (SetCopied false)) 1200 Finish)))
      (fun _ => Finish).

(** ** The component as a machine *)

(** A handler run until it ends or awaits. *)
Inductive Paused (A : Type) : Type :=
| Finished (c : Completion A)
| Waiting (req : Request) (k : Settled -> Prog A).

Arguments Finished {A} c.
Arguments Waiting {A} req k.

Fixpoint start {A : Type} (p : Prog A) (w : World) : World * Paused A :=
  match p with
  | Ret a => (w, Finished (Returned a))
  | Throw e => (w, Finished (Threw e))
  | Do e k => start k (apply_effect e w)
  | Await req k =>
      (mkWorld (ui w) (storage w) (req :: requests w) (console w), Waiting req k)
  end.

(** The page: the world of the handlers, the requests and clipboard writes
    still awaited with what resumes when they settle, the texts handed to
    the clipboard (latest first) and the timers not yet fired. *)
Record App : Type := mkApp {
  world : World;
  pending : list (Settled -> Prog unit);
  writes : list JsValue;
  writing : list (Settled -> Script);
  timers : list (N * Prog unit)
}.

Definition with_world (a : App) (w : World) : App :=
  mkApp w (pending a) (writes a) (writing a) (timers a).

(** Running a handler, or the rest of one, inside the page. *)
Definition handle (p : Prog unit) (a : App) : App :=
  match start p (world a) with
  | (w, Finished _) => with_world a w
  | (w, Waiting _ k) =>
      mkApp w (pending a ++ [k]) (writes a) (writing a) (timers a)
  end.

(** The same for a script; the second component tells how it ended, [None]
    when it is awaiting the clipboard. *)
Fixpoint launch (p : Script) (a : App) : App * option (Completion unit) :=
  match p with
  | Finish => (a, Some (Returned tt))
  | Raise e => (a, Some (Threw e))
  | Step e k => launch k (with_world a (apply_effect e (world a)))
  | WriteText text k =>
      (mkApp (world a) (pending a) (text :: writes a) (writing a ++ [k]) (timers a),
       None)
  | SetTimeout callback ms k =>
      launch k (mkApp (world a) (pending a) (writes a) (writing a)
                      (timers a ++ [(ms, callback)]))
  end.

Fixpoint remove_nth {A : Type} (i : nat) (l : list A) : list A :=
  match l, i with
  | [], _ => []
  | _ :: rest, O => rest
  | x :: rest, S j => x :: remove_nth j rest
  end.

(** What can happen to the page. *)
Inductive Event : Type :=
| TypeText (value : jsstring)
| SelectSource (value : jsstring)
| SelectTarget (value : jsstring)
| ClickSwap
| ClickTranslate
| ClickClear
| ClickCopy
| TypeKey (value : jsstring)
| ClickSaveKey
| Settles (i : nat) (s : Settled)
| Written (i : nat) (s : Settled)
| TimerFires (i : nat).

(** A user event needs its control: the component must have rendered, a
    [select] offers the listed languages only, a disabled button does not
    click, and the key field and "Save Key" exist only inside the banner.
    A promise settles, and a timer fires, only if it is outstanding. *)
Definition step (ev : Event) (a : App) : option App :=
  let c := ui (world a) in
  let user (enabled : bool) (p : Prog unit) :=
    if renders c && enabled then Some (handle p a) else None in
  match ev with
  | TypeText v => user true (changeInputText v)
  | SelectSource v => user (is_option_value v) (changeSourceLang v)
  | SelectTarget v => user (is_option_value v) (changeTargetLang v)
  | ClickSwap => user true (swapLanguages c)
  | ClickTranslate =>
      match translate_disabled c with
      | Some false => Some (handle (translateText c) a)
      | _ => None
      end
  | ClickClear => user true clearText
  | ClickCopy =>
      if renders c && negb (copy_disabled c)
      then Some (fst (launch (copyTranslated c) a))
      else None
  | TypeKey v => user (key_banner c) (changeTempKey v)
  | ClickSaveKey => user (key_banner c) (saveKey c)
  | Settles i s =>
      match nth_error (pending a) i with
      | Some k =>
          Some (handle (k s)
                  (mkApp (world a) (remove_nth i (pending a)) (writes a)
                         (writing a) (timers a)))
      | None => None
      end
  | Written i s =>
      match nth_error (writing a) i with
      | Some k =>
          Some (fst (launch (k s)
                       (mkApp (world a) (pending a) (writes a)
                              (remove_nth i (writing a)) (timers a))))
      | None => None
      end
  | TimerFires i =>
      match nth_error (timers a) i with
      | Some (_, callback) =>
          Some (handle callback
                  (mkApp (world a) (pending a) (writes a) (writing a)
                         (remove_nth i (timers a))))
      | None => None
      end
  end.

(** A history of events; [None] when one of them cannot happen. *)
Fixpoint play (evs : list Event) (a : App) : option App :=
  match evs with
  | [] => Some a
  | ev :: rest =>
      match step ev a with
      | Some a' => play rest a'
      | None => None
      end
  end.

(** The page when the component mounts: the cells at their initial values,
    the credential from [initialApiKey], nothing sent or awaited. *)
Definition boot (VITE_RAPIDAPI_KEY : option jsstring)
           (localStorage : list (jsstring * jsstring)) : option App :=
  match initialApiKey VITE_RAPIDAPI_KEY localStorage with
  | Some key => Some (mkApp (mkWorld (initialState key) localStorage [] [])
                            [] [] [] [])
  | None => None
  end.

(** ** Sample pages *)

Definition stored_key : list (jsstring * jsstring) :=
  [ (js "theme", js "dark"); (js "rapidapi_key", js "abc123") ].

Definition saving_world : World :=
  mkWorld (mkState (JStr (js "Good morning")) (JStr (js "")) (js "en") (js "fr")
                   false msg_missing_key false (js "") (js "  abc123 "))
          [] [] [].

Definition blank_key_world : World :=
  mkWorld (mkState (JStr (js "Good morning")) (JStr (js "")) (js "en") (js "fr")
                   false msg_missing_key false (js "") (js "   "))
          [] [] [].

Definition translated_app : App :=
  mkApp (mkWorld (mkState (JStr (js "Hello")) (JStr (js "Hola")) (js "en") (js "es")
                          false (js "") false (js "key") (js ""))
                 [] [] [])
        [] [] [] [].

(** ** What the machine maintains *)

(** The strings the [error] cell is given by a handler the page can
    trigger; the empty-input message is not among them. *)
Definition error_messages : list jsstring :=
  [ js ""; msg_missing_key; msg_authorization; msg_rate_limit; msg_failed ].

Definition known_message (m : jsstring) : bool :=
  existsb (JsString.eqb m) error_messages.

(** A request as [translateText] builds it from a page with a credential,
    listed languages and a text that is not blank. *)
Definition well_formed (r : Request) : bool :=
  JsString.eqb (method r) (js "POST")
  && JsString.eqb (url r) (js "https://text-translator2.p.rapidapi.com/translate")
  && match headers r, data r with
     | [ (h1, v1); (h2, key); (h3, v3) ],
       [ (d1, JStr source); (d2, JStr target); (d3, JStr text) ] =>
         JsString.eqb h1 (js "content-type")
         && JsString.eqb v1 (js "application/x-www-form-urlencoded")
         && JsString.eqb h2 (js "X-RapidAPI-Key")
         && negb (JsString.eqb key [])
         && JsString.eqb (JsString.trim key) key
         && JsString.eqb h3 (js "X-RapidAPI-Host")
         && JsString.eqb v3 (js "text-translator2.p.rapidapi.com")
         && JsString.eqb d1 (js "source_language")
         && is_option_value source
         && JsString.eqb d2 (js "target_language")
         && is_option_value target
         && JsString.eqb d3 (js "text")
         && negb (JsString.blank text)
     | _, _ => false
     end.

(** The cells and logs that only [translateText], its continuation and
    the other named handlers may change; [copied], [tempKey] and the two
    texts are left out. *)
Definition guarded (w : World)
  : jsstring * jsstring * jsstring * list Request * list (jsstring * jsstring) :=
  (sourceLang (ui w), targetLang (ui w), apiKey (ui w), requests w, storage w).

(** What resumes when the request settles: it ends by returning, with the
    loading flag down; it writes the output only on fulfilment, the error
    only with a known message, and nothing else. *)
Definition resumes_cleanly (k : Settled -> Prog unit) : Prop :=
  forall (s : Settled) (w : World),
  exists w',
    start (k s) w = (w', Finished (Returned tt))
    /\ isLoading (ui w') = false
    /\ guarded w' = guarded w
    /\ inputText (ui w') = inputText (ui w)
    /\ (error (ui w') = error (ui w) \/ known_message (error (ui w')) = true)
    /\ (translatedText (ui w') = translatedText (ui w)
        \/ exists response,
             s = Fulfilled response
             /\ translatedText (ui w')
                = js_or (response ?. "data" ?. "data" ?. "translatedText")
                        (JStr (js ""))).

(** The timer [copyTranslated] sets. *)
Definition copied_timer : N * Prog unit := (1200%N, perform (SetCopied false)).

(** What resumes when the clipboard write settles: it ends by returning,
    having at most raised [copied] and set its timer. *)
Definition resumes_copy (k : Settled -> Script) : Prop :=
  forall (s : Settled) (a : App),
  exists a',
    launch (k s) a = (a', Some (Returned tt))
    /\ pending a' = pending a
    /\ writes a' = writes a
    /\ writing a' = writing a
    /\ ((world a' = world a /\ timers a' = timers a)
        \/ (world a' = apply_effect (SetCopied true) (world a)
            /\ timers a' = timers a ++ [copied_timer])).

Record invariant (a : App) : Prop := mkInvariant {
  inv_pending :
    match pending a with
    | [] => isLoading (ui (world a)) = false
    | [k] => isLoading (ui (world a)) = true /\ resumes_cleanly k
    | _ => False
    end;
  inv_source : is_option_value (sourceLang (ui (world a))) = true;
  inv_target : is_option_value (targetLang (ui (world a))) = true;
  inv_error : known_message (error (ui (world a))) = true;
  inv_key : JsString.trim (apiKey (ui (world a))) = apiKey (ui (world a));
  inv_requests : forallb well_formed (requests (world a)) = true;
  inv_writes : forallb truthy (writes a) = true;
  inv_writing : Forall resumes_copy (writing a);
  inv_timers : Forall (fun t => t = copied_timer) (timers a)
}.

Arguments is_option_value : simpl never.
Arguments known_message : simpl never.
Arguments well_formed : simpl never.

(** A value a text area can hold without the render throwing. *)
Definition is_string (v : JsValue) : bool :=
  match v with JStr _ => true | _ => false end.

(** The service answers as documented: where a response is fulfilled, its
    [data.data.translatedText] is a string, or missing or otherwise falsy. *)
Definition answers_with_text (ev : Event) : bool :=
  match ev with
  | Settles _ (Fulfilled response) =>
      is_string (js_or (response ?. "data" ?. "data" ?. "translatedText")
                       (JStr (js "")))
  | _ => true
  end.

(** A short session: type, translate, the response arrives, copy, swap. *)
Definition session : list Event :=
  [ TypeText (js "Hello"); SelectTarget (js "fr"); ClickTranslate;
    Settles 0 (Fulfilled hola_response); ClickCopy;
    Written 0 (Fulfilled JUndefined); ClickSwap; ClickTranslate ].

(** The page the sample session leads to, from a start with a build-time
    key. *)
Definition session_start : App :=
  match boot (Some (js " key ")) [] with
  | Some a => a
  | None => translated_app
  end.

Definition session_end : App :=
  match play session session_start with
  | Some a => a
  | None => session_start
  end.

(** Both text areas hold strings. *)
Definition texts_are_strings (c : State) : Prop :=
  is_string (inputText c) = true /\ is_string (translatedText c) = true.

Definition stored_theme : list (jsstring * jsstring) :=
  [ (js "theme", js "dark"); (js "rapidapi_key", js "old") ].

(** A start whose build-time value is blank, so that the banner shows,
    and a session that saves a key. *)
Definition keyless_start : App :=
  match boot (Some (js "  ")) stored_theme with
  | Some a => a
  | None => translated_app
  end.

Definition saving_session : list Event := [ TypeKey (js " k2 "); ClickSaveKey ].

Definition saving_session_end : App :=
  match play saving_session keyless_start with
  | Some a => a
  | None => keyless_start
  end.

(** * Properties *)

(** ** Trimming *)

Module TrimFacts.
Import JsString.

Lemma trimStart_blank (s : t) : blank s = true -> trimStart s = [].
Proof.
  induction s as [|c s IH]; simpl; [reflexivity|].
  intros H. apply andb_true_iff in H as [Hc Hs].
  rewrite Hc. auto.
Qed.

Lemma trimStart_nil_blank (s : t) : trimStart s = [] -> blank s = true.
Proof.
  induction s as [|c s IH]; simpl; [reflexivity|].
  destruct (is_white_space c); [auto | discriminate].
Qed.

(** What [trimStart] leaves does not begin with white space. *)
Lemma trimStart_head (s : t) (c : N) (r : t) :
  trimStart s = c :: r -> is_white_space c = false.
Proof.
  induction s as [|d s IH]; simpl; [discriminate|].
  destruct (is_white_space d) eqn:Hd; [assumption|].
  intros E. injection E as -> _. assumption.
Qed.

Lemma blank_rev (s : t) : blank (rev s) = blank s.
Proof.
  unfold blank. induction s as [|c s IH]; simpl; [reflexivity|].
  rewrite forallb_app, IH. simpl. rewrite andb_true_r. apply andb_comm.
Qed.

Lemma trim_blank (s : t) : blank s = true -> trim s = [].
Proof.
  intros H. unfold trim, trimEnd. rewrite (trimStart_blank _ H). reflexivity.
Qed.

Lemma trim_nil_blank (s : t) : trim s = [] -> blank s = true.
Proof.
  unfold trim, trimEnd. intros H.
  assert (Hr : trimStart (rev (trimStart s)) = []).
  { destruct (trimStart (rev (trimStart s))) as [|x l] eqn:E; [reflexivity|].
    simpl in H. destruct (rev l); discriminate. }
  apply trimStart_nil_blank in Hr. rewrite blank_rev in Hr.
  destruct (trimStart s) as [|c r] eqn:E.
  - apply trimStart_nil_blank. assumption.
  - apply trimStart_head in E. simpl in Hr. rewrite E in Hr. discriminate.
Qed.

(** An empty trimmed text is exactly a blank text. *)
Lemma trim_nil_iff (s : t) : trim s = [] <-> blank s = true.
Proof. split; [apply trim_nil_blank | apply trim_blank]. Qed.

End TrimFacts.

(** ** Running [translateText] *)

Section Translate.

Variables (c : State) (s : jsstring).
Hypothesis Htext : inputText c = JStr s.

Lemma translateText_blank :
  JsString.blank s = true ->
  translateText c = perform (SetError msg_empty_input).
Proof.
  intros Hb. unfold translateText. rewrite Htext. cbn [call_trim].
  rewrite (TrimFacts.trim_blank _ Hb). reflexivity.
Qed.

Lemma translateText_no_key :
  JsString.trim s <> [] -> apiKey c = [] ->
  translateText c = perform (SetError msg_missing_key).
Proof.
  intros Ht Hk. unfold translateText. rewrite Htext, Hk. cbn [call_trim].
  destruct (JsString.trim s); [contradiction | reflexivity].
Qed.

Hypothesis Htrim : JsString.trim s <> [].
Hypothesis Hkey : apiKey c <> [].

Lemma translateText_ready :
  translateText c =
  Do (SetIsLoading true)
     (Do (SetError (js ""))
         (try_finally
            (try_catch
               (bind (await_request (options c)) (fun response =>
                  perform (SetTranslatedText
                    (js_or (response ?. "data" ?. "data" ?. "translatedText")
                           (JStr (js ""))))))
               on_error)
            (perform (SetIsLoading false)))).
Proof.
  unfold translateText. rewrite Htext. cbn [call_trim].
  destruct (JsString.trim s); [contradiction|].
  destruct (apiKey c); [contradiction|]. reflexivity.
Qed.

Lemma run_translateText_ready net env (w : World) :
  run (translateText c) net env w =
  match net (options c) with
  | Fulfilled response =>
      (apply_effect (SetIsLoading false)
         (apply_effect
            (SetTranslatedText
               (js_or (response ?. "data" ?. "data" ?. "translatedText")
                      (JStr (js ""))))
            (env (sent c w))), Returned tt)
  | Rejected err =>
      (apply_effect (SetIsLoading false)
         (apply_effect (SetError (caught_message err))
            (apply_effect (ConsoleError (js "Translation error:") err)
               (env (sent c w)))), Returned tt)
  end.
Proof.
  rewrite translateText_ready.
  cbn [run await_request bind try_catch try_finally].
  fold (sent c w).
  destruct (net (options c)) as [response|err].
  - reflexivity.
  - cbn [bind try_catch try_finally].
    unfold on_error, caught_message. cbn [bind perform try_finally run].
    destruct (strict_eq_num _ 401 || strict_eq_num _ 403); [reflexivity|].
    destruct (strict_eq_num _ 429); reflexivity.
Qed.

End Translate.

(** ** Status codes *)

Lemma status_tests_agree_all : forallb status_tests_agree status_codes = true.
Proof. vm_compute. reflexivity. Qed.

Lemma status_code_tests (n : Z) :
  (0 <= n < 1000)%Z -> status_tests_agree n = true.
Proof.
  intros Hn.
  apply (proj1 (forallb_forall status_tests_agree status_codes)
               status_tests_agree_all).
  unfold status_codes. apply in_map_iff. exists (Z.to_nat n). split.
  - lia.
  - apply in_seq. lia.
Qed.

Lemma caught_message_status (err : JsValue) (status : option Z) :
  err ?. "response" ?. "status" = status_value status ->
  (forall n, status = Some n -> (0 <= n < 1000)%Z) ->
  caught_message err = message (classification status).
Proof.
  intros E Hr. unfold caught_message. rewrite E.
  destruct status as [n|]; [|reflexivity].
  pose proof (status_code_tests (Hr n eq_refl)) as H.
  unfold status_tests_agree in H.
  apply andb_true_iff in H as [H H429].
  apply andb_true_iff in H as [H401 H403].
  apply eqb_prop in H401, H403, H429.
  cbn [status_value classification].
  rewrite H401, H403, H429.
  destruct ((n =? 401)%Z || (n =? 403)%Z); [reflexivity|].
  destruct (n =? 429)%Z; reflexivity.
Qed.

Lemma message_inj (a b : Failure) : message a = message b -> a = b.
Proof.
  destruct a, b; intros H; try reflexivity; vm_compute in H; discriminate H.
Qed.

(** ** Precondition checks *)

(** C1.  When the input text is empty or white space only, [translateText]
    does one thing, whatever the rest of the state: it sets the error to the
    empty-input message.  No request is sent and the loading flag is never
    written. *)
Theorem translate_empty_input (w : World) (s : jsstring)
        (net : Request -> Settled) (env : World -> World) :
  inputText (ui w) = JStr s ->
  JsString.blank s = true ->
  translateText (ui w) = Do (SetError (message EmptyInput)) (Ret tt)
  /\ invoke translateText net env w
     = (apply_effect (SetError (message EmptyInput)) w, Returned tt)
  /\ let w' := fst (invoke translateText net env w) in
     error (ui w') = message EmptyInput
     /\ requests w' = requests w
     /\ isLoading (ui w') = isLoading (ui w).
Proof.
  intros Htext Hblank.
  pose proof (translateText_blank _ Htext Hblank) as E.
  unfold invoke. rewrite E. cbn. auto.
Qed.

Lemma translate_empty_input_witness :
  error (ui (fst (invoke translateText (fun _ => Fulfilled JNull) quiet
                         whitespace_world)))
  = message EmptyInput.
Proof.
  apply (translate_empty_input whitespace_world (s := [0x20; 0x09; 0xA0; 0x0A]%N)
           (fun _ => Fulfilled JNull) quiet); reflexivity.
Defined.

(** C2.  When the trimmed input text is not empty and the credential is the
    empty string, [translateText] sets the error to the missing-credential
    message and does nothing else: no request is sent. *)
Theorem translate_missing_credential (w : World) (s : jsstring)
        (net : Request -> Settled) (env : World -> World) :
  inputText (ui w) = JStr s ->
  JsString.trim s <> [] ->
  apiKey (ui w) = [] ->
  translateText (ui w) = Do (SetError (message MissingCredential)) (Ret tt)
  /\ invoke translateText net env w
     = (apply_effect (SetError (message MissingCredential)) w, Returned tt)
  /\ let w' := fst (invoke translateText net env w) in
     error (ui w') = message MissingCredential
     /\ requests w' = requests w
     /\ isLoading (ui w') = isLoading (ui w).
Proof.
  intros Htext Htrim Hkey.
  pose proof (translateText_no_key _ Htext Htrim Hkey) as E.
  unfold invoke. rewrite E. cbn. auto.
Qed.

Lemma translate_missing_credential_witness :
  error (ui (fst (invoke translateText (fun _ => Fulfilled JNull) quiet
                         keyless_world)))
  = message MissingCredential.
Proof.
  apply (translate_missing_credential keyless_world (s := js " Hello ")
           (fun _ => Fulfilled JNull) quiet).
  - reflexivity.
  - vm_compute. discriminate.
  - reflexivity.
Defined.

(** C9.  When the trimmed input text is empty and the credential is absent
    too, the outcome is the empty-input failure and not the
    missing-credential one: the text is checked first. *)
Theorem empty_input_checked_first (w : World) (s : jsstring)
        (net : Request -> Settled) (env : World -> World) :
  inputText (ui w) = JStr s ->
  JsString.trim s = [] ->
  apiKey (ui w) = [] ->
  let w' := fst (invoke translateText net env w) in
  error (ui w') = message EmptyInput
  /\ error (ui w') <> message MissingCredential
  /\ requests w' = requests w.
Proof.
  intros Htext Htrim Hkey.
  apply TrimFacts.trim_nil_blank in Htrim.
  unfold invoke. rewrite (translateText_blank _ Htext Htrim). cbn.
  repeat split.
  intros H. apply (message_inj EmptyInput MissingCredential) in H.
  discriminate H.
Qed.

Lemma empty_input_checked_first_witness :
  error (ui (fst (invoke translateText (fun _ => Fulfilled JNull) quiet
                         blank_keyless_world)))
  = message EmptyInput.
Proof.
  apply (empty_input_checked_first blank_keyless_world (s := js "   ")
           (fun _ => Fulfilled JNull) quiet); reflexivity.
Defined.

(** ** Outcome of a dispatched request *)

(** With a non-blank text and a credential, exactly one request is sent:
    the one built from the closure's languages, text and credential. *)
Lemma translate_sends_request (w : World) (s : jsstring)
      (net : Request -> Settled) :
  inputText (ui w) = JStr s ->
  JsString.trim s <> [] ->
  apiKey (ui w) <> [] ->
  requests (fst (invoke translateText net quiet w))
  = options (ui w) :: requests w.
Proof.
  intros Htext Htrim Hkey. unfold invoke.
  rewrite (run_translateText_ready _ Htext Htrim Hkey).
  destruct (net (options (ui w))); reflexivity.
Qed.

(** Whatever the body of a [try] does, once it has ended the [finally]
    block has written the loading flag. *)
Lemma run_try_finally_loading (A : Type) (body : Prog A) (b : bool)
      (net : Request -> Settled) (env : World -> World) (w : World) :
  isLoading (ui (fst (run (try_finally body (perform (SetIsLoading b))) net env w)))
  = b.
Proof.
  revert w. induction body as [a | e | e k IH | req k IH]; intros w.
  - reflexivity.
  - reflexivity.
  - cbn [try_finally run]. apply IH.
  - cbn [try_finally run]. apply IH.
Qed.

(** C3.  A rejected request is classified by the status of its response:
    401 and 403 give the authorization failure, 429 the rate limit, any
    other status and an error without a response the generic failure; the
    error cell holds the message of that kind and of no other. *)
Theorem translate_failure_classification (w : World) (s : jsstring)
        (net : Request -> Settled) (env : World -> World)
        (err : JsValue) (status : option Z) :
  inputText (ui w) = JStr s ->
  JsString.trim s <> [] ->
  apiKey (ui w) <> [] ->
  net (options (ui w)) = Rejected err ->
  err ?. "response" ?. "status" = status_value status ->
  (forall n, status = Some n -> (0 <= n < 1000)%Z) ->
  let w' := fst (invoke translateText net env w) in
  forall k : Failure, error (ui w') = message k <-> k = classification status.
Proof.
  intros Htext Htrim Hkey Hnet Hst Hrange w' k. subst w'. unfold invoke.
  rewrite (run_translateText_ready _ Htext Htrim Hkey), Hnet.
  cbn [fst apply_effect set_ui ui error].
  rewrite (caught_message_status _ Hst Hrange).
  split.
  - intros H. symmetry. apply message_inj. assumption.
  - intros ->. reflexivity.
Qed.

Lemma translate_failure_classification_witness :
  error (ui (fst (invoke translateText (fun _ => Rejected (status_error 403))
                         quiet ready_world)))
  = message AuthorizationFailed
  /\ error (ui (fst (invoke translateText (fun _ => Rejected (status_error 429))
                            quiet ready_world)))
     = message RateLimited
  /\ error (ui (fst (invoke translateText (fun _ => Rejected (status_error 500))
                            quiet ready_world)))
     = message TranslationFailed
  /\ error (ui (fst (invoke translateText (fun _ => Rejected network_error)
                            quiet ready_world)))
     = message TranslationFailed.
Proof.
  assert (Htrim : JsString.trim (js "Hello") <> []) by (vm_compute; discriminate).
  assert (Hkey : apiKey (ui ready_world) <> []) by (vm_compute; discriminate).
  split; [|split; [|split]].
  - apply (translate_failure_classification ready_world
             (fun _ => Rejected (status_error 403)) quiet
             (err := status_error 403) (status := Some 403%Z)
             eq_refl Htrim Hkey eq_refl eq_refl).
    + intros n E. injection E as <-. lia.
    + reflexivity.
  - apply (translate_failure_classification ready_world
             (fun _ => Rejected (status_error 429)) quiet
             (err := status_error 429) (status := Some 429%Z)
             eq_refl Htrim Hkey eq_refl eq_refl).
    + intros n E. injection E as <-. lia.
    + reflexivity.
  - apply (translate_failure_classification ready_world
             (fun _ => Rejected (status_error 500)) quiet
             (err := status_error 500) (status := Some 500%Z)
             eq_refl Htrim Hkey eq_refl eq_refl).
    + intros n E. injection E as <-. lia.
    + reflexivity.
  - apply (translate_failure_classification ready_world
             (fun _ => Rejected network_error) quiet
             (err := network_error) (status := None)
             eq_refl Htrim Hkey eq_refl eq_refl).
    + intros n E. discriminate E.
    + reflexivity.
Defined.

(** Whatever value the rejected request throws, the error cell ends with
    one of the three messages of the [catch] block. *)
Lemma translate_failure_total (w : World) (s : jsstring)
      (net : Request -> Settled) (env : World -> World) (err : JsValue) :
  inputText (ui w) = JStr s ->
  JsString.trim s <> [] ->
  apiKey (ui w) <> [] ->
  net (options (ui w)) = Rejected err ->
  exists k : Failure,
    error (ui (fst (invoke translateText net env w))) = message k
    /\ (k = AuthorizationFailed \/ k = RateLimited \/ k = TranslationFailed).
Proof.
  intros Htext Htrim Hkey Hnet. unfold invoke.
  rewrite (run_translateText_ready _ Htext Htrim Hkey), Hnet.
  cbn [fst apply_effect set_ui ui error]. unfold caught_message.
  destruct (strict_eq_num _ 401 || strict_eq_num _ 403).
  - exists AuthorizationFailed. auto.
  - destruct (strict_eq_num _ 429).
    + exists RateLimited. auto.
    + exists TranslationFailed. auto.
Qed.

(** C4.  On a fulfilled request the output cell receives the field
    [data.data.translatedText] of the response; when the field is missing
    the output is the empty string.  The handler returns normally and does
    not write the error cell, which it cleared when it sent the request. *)
Theorem translate_success_output (w : World) (s : jsstring)
        (net : Request -> Settled) (env : World -> World) (response : JsValue) :
  inputText (ui w) = JStr s ->
  JsString.trim s <> [] ->
  apiKey (ui w) <> [] ->
  net (options (ui w)) = Fulfilled response ->
  let field := response ?. "data" ?. "data" ?. "translatedText" in
  let w' := fst (invoke translateText net env w) in
  (forall t, field = JStr t -> translatedText (ui w') = JStr t)
  /\ (field = JUndefined -> translatedText (ui w') = JStr (js ""))
  /\ snd (invoke translateText net env w) = Returned tt
  /\ ((forall x, error (ui (env x)) = error (ui x)) -> error (ui w') = js "").
Proof.
  intros Htext Htrim Hkey Hnet field w'. subst field w'. unfold invoke.
  rewrite (run_translateText_ready _ Htext Htrim Hkey), Hnet.
  cbn [fst snd apply_effect set_ui ui translatedText error].
  split; [|split; [|split]].
  - intros t ->. destruct t; reflexivity.
  - intros ->. reflexivity.
  - reflexivity.
  - intros Henv. rewrite Henv. reflexivity.
Qed.

Lemma translate_success_output_witness :
  translatedText (ui (fst (invoke translateText (fun _ => Fulfilled hola_response)
                                  quiet ready_world)))
  = JStr (js "Hola").
Proof.
  assert (Htrim : JsString.trim (js "Hello") <> []) by (vm_compute; discriminate).
  assert (Hkey : apiKey (ui ready_world) <> []) by (vm_compute; discriminate).
  apply (proj1 (translate_success_output ready_world
                  (fun _ => Fulfilled hola_response) quiet
                  eq_refl Htrim Hkey eq_refl)).
  reflexivity.
Defined.

(** C5.  Once a request that was sent has settled, fulfilled or rejected,
    the loading flag is false, whatever happened to the state in between;
    and the [finally] block clears it however the guarded body ends, a
    thrown exception included. *)
Theorem translate_clears_loading (w : World) (s : jsstring)
        (net : Request -> Settled) (env : World -> World) :
  inputText (ui w) = JStr s ->
  JsString.trim s <> [] ->
  apiKey (ui w) <> [] ->
  isLoading (ui (fst (invoke translateText net env w))) = false
  /\ forall (body : Prog unit) (w0 : World),
       isLoading
         (ui (fst (run (try_finally body (perform (SetIsLoading false)))
                       net env w0))) = false.
Proof.
  intros Htext Htrim Hkey. split.
  - unfold invoke. rewrite (translateText_ready _ Htext Htrim Hkey).
    cbn [run]. apply run_try_finally_loading.
  - intros body w0. apply run_try_finally_loading.
Qed.

Lemma translate_clears_loading_witness :
  isLoading (ui (fst (invoke translateText (fun _ => Rejected network_error)
                             quiet ready_world))) = false
  /\ isLoading (ui (fst (invoke translateText (fun _ => Fulfilled hola_response)
                                quiet ready_world))) = false.
Proof.
  assert (Htrim : JsString.trim (js "Hello") <> []) by (vm_compute; discriminate).
  assert (Hkey : apiKey (ui ready_world) <> []) by (vm_compute; discriminate).
  split.
  - exact (proj1 (translate_clears_loading ready_world
                    (fun _ => Rejected network_error) quiet
                    eq_refl Htrim Hkey)).
  - exact (proj1 (translate_clears_loading ready_world
                    (fun _ => Fulfilled hola_response) quiet
                    eq_refl Htrim Hkey)).
Defined.

(** C10.  When [translateText] fails -- blank input, missing credential or
    a rejected request -- it does not write the output cell: unless some
    other handler changes it meanwhile, the translated text is the one
    shown before the invocation. *)
Theorem translate_failure_keeps_output (w : World)
        (net : Request -> Settled) (env : World -> World) :
  (forall x, translatedText (ui (env x)) = translatedText (ui x)) ->
  translate_fails w net ->
  translatedText (ui (fst (invoke translateText net env w)))
  = translatedText (ui w).
Proof.
  intros Henv Hfail. unfold invoke.
  destruct Hfail as [(s & Htext & Hblank) | [(s & Htext & Htrim & Hkey)
                                            | (s & err & Htext & Hnet)]].
  - rewrite (translateText_blank _ Htext Hblank). reflexivity.
  - rewrite (translateText_no_key _ Htext Htrim Hkey). reflexivity.
  - destruct (JsString.trim s) as [|x t] eqn:Htrim.
    + apply TrimFacts.trim_nil_blank in Htrim.
      rewrite (translateText_blank _ Htext Htrim). reflexivity.
    + assert (Hne : JsString.trim s <> []) by (rewrite Htrim; discriminate).
      destruct (apiKey (ui w)) as [|y k] eqn:Hkey.
      * rewrite (translateText_no_key _ Htext Hne Hkey). reflexivity.
      * assert (Hk : apiKey (ui w) <> []) by (rewrite Hkey; discriminate).
        rewrite (run_translateText_ready _ Htext Hne Hk), Hnet.
        cbn [fst apply_effect set_ui ui translatedText].
        rewrite Henv. reflexivity.
Qed.

Lemma translate_failure_keeps_output_witness :
  translatedText (ui (fst (invoke translateText (fun _ => Rejected (status_error 401))
                                  quiet ready_world)))
  = JStr (js "old").
Proof.
  apply (translate_failure_keeps_output (w := ready_world)
           (net := fun _ => Rejected (status_error 401)) quiet).
  - intros x. reflexivity.
  - right. right. exists (js "Hello"), (status_error 401). split; reflexivity.
Defined.

(** ** Swap and clear *)

(** C6.  [swapLanguages] exchanges the two language selections and the two
    text cells, and touches nothing else: the other cells, the storage, the
    console and the list of requests sent are as before. *)
Theorem swap_exchanges (w : World) (net : Request -> Settled)
        (env : World -> World) :
  let w' := fst (invoke swapLanguages net env w) in
  (sourceLang (ui w') = targetLang (ui w)
   /\ targetLang (ui w') = sourceLang (ui w)
   /\ inputText (ui w') = translatedText (ui w)
   /\ translatedText (ui w') = inputText (ui w))
  /\ (isLoading (ui w') = isLoading (ui w)
      /\ error (ui w') = error (ui w)
      /\ copied (ui w') = copied (ui w)
      /\ apiKey (ui w') = apiKey (ui w)
      /\ tempKey (ui w') = tempKey (ui w))
  /\ (requests w' = requests w
      /\ storage w' = storage w
      /\ console w' = console w)
  /\ snd (invoke swapLanguages net env w) = Returned tt.
Proof.
  unfold invoke, swapLanguages. cbn. tauto.
Qed.

(** C8.  [clearText] empties the input text, the output text and the
    error, and touches nothing else: languages, credential, loading flag
    and the remaining cells are as before, and no request is sent. *)
Theorem clear_resets (w : World) (net : Request -> Settled)
        (env : World -> World) :
  let w' := fst (invoke (fun _ => clearText) net env w) in
  (inputText (ui w') = JStr (js "")
   /\ translatedText (ui w') = JStr (js "")
   /\ error (ui w') = js "")
  /\ (sourceLang (ui w') = sourceLang (ui w)
      /\ targetLang (ui w') = targetLang (ui w)
      /\ apiKey (ui w') = apiKey (ui w)
      /\ isLoading (ui w') = isLoading (ui w)
      /\ copied (ui w') = copied (ui w)
      /\ tempKey (ui w') = tempKey (ui w))
  /\ (requests w' = requests w
      /\ storage w' = storage w
      /\ console w' = console w)
  /\ snd (invoke (fun _ => clearText) net env w) = Returned tt.
Proof.
  unfold invoke, clearText. cbn. tauto.
Qed.

(** ** The credential at startup *)

Lemma js_empty : js "" = [].
Proof. reflexivity. Qed.

Lemma getItem_cases (k : jsstring) (st : list (jsstring * jsstring)) :
  getItem k st = JNull \/ exists v, getItem k st = JStr v.
Proof.
  induction st as [|[k' v] st IH]; cbn [getItem]; [left; reflexivity|].
  destruct (JsString.eqb k k'); [right; exists v; reflexivity | exact IH].
Qed.

(** C7, as the code has it.  The credential is the first present source --
    the build-time value, else the persisted one, else the empty string, a
    source being present when it is a non-empty string -- with leading and
    trailing white space removed; the initialiser never throws. *)
Theorem initial_credential_precedence (injected : option jsstring)
        (localStorage : list (jsstring * jsstring)) :
  initialApiKey injected localStorage
  = Some (JsString.trim (first_present injected (persisted_key localStorage))).
Proof.
  unfold initialApiKey, persisted_key. rewrite js_empty.
  destruct (getItem_cases (js "rapidapi_key") localStorage) as [E | [v E]];
    rewrite E;
    destruct injected as [[|c s]|]; try destruct v as [|d v]; reflexivity.
Qed.

(** C7, as the claim words it, fails: a build-time value with surrounding
    white space is present, yet the credential is not that value. *)
Lemma initial_credential_not_verbatim :
  initialApiKey (Some (js " k")) [] = Some (js "k")
  /\ first_present (Some (js " k")) (persisted_key []) = js " k"
  /\ initialApiKey (Some (js " k")) []
     <> Some (first_present (Some (js " k")) (persisted_key [])).
Proof.
  split; [reflexivity|]. split; [reflexivity|].
  vm_compute. discriminate.
Qed.

(** ** Saving a credential *)

Lemma eqb_refl (k : jsstring) : JsString.eqb k k = true.
Proof.
  unfold JsString.eqb. destruct (list_eq_dec N.eq_dec k k); congruence.
Qed.

(** The "Save Key" handler stores the trimmed key, when it is not empty,
    both in the storage and in the [apiKey] cell, and sends nothing. *)
Lemma saveKey_persists (w : World) (net : Request -> Settled)
      (env : World -> World) :
  JsString.trim (tempKey (ui w)) <> [] ->
  let w' := fst (invoke saveKey net env w) in
  persisted_key (storage w') = Some (JsString.trim (tempKey (ui w)))
  /\ apiKey (ui w') = JsString.trim (tempKey (ui w))
  /\ requests w' = requests w.
Proof.
  intros Hk. unfold invoke, saveKey.
  destruct (JsString.trim (tempKey (ui w))) as [|x k] eqn:E; [contradiction|].
  cbn [truthy negb bind perform run fst apply_effect set_ui ui storage
       requests apiKey].
  unfold persisted_key, setItem. cbn [getItem].
  rewrite eqb_refl. auto.
Qed.

(** * Further properties *)

(** ** More on trimming and on string equality *)

Lemma jsstring_eqb_eq (a b : jsstring) : JsString.eqb a b = true <-> a = b.
Proof.
  unfold JsString.eqb. destruct (list_eq_dec N.eq_dec a b); split;
    congruence.
Qed.

Lemma jsstring_eqb_neq (a b : jsstring) : JsString.eqb a b = false <-> a <> b.
Proof.
  unfold JsString.eqb. destruct (list_eq_dec N.eq_dec a b); split;
    congruence.
Qed.

Module TrimIdempotent.
Import JsString.

(** [trimStart] removes a prefix of white space. *)
Lemma trimStart_split (s : t) :
  exists ws, s = ws ++ trimStart s /\ blank ws = true.
Proof.
  induction s as [|c s (ws & E & Hws)]; [exists []; split; reflexivity|].
  cbn [trimStart]. destruct (is_white_space c) eqn:Hc.
  - exists (c :: ws). split; [cbn; congruence|]. cbn. rewrite Hc. exact Hws.
  - exists []. split; reflexivity.
Qed.

(** A text that does not begin with white space is left alone. *)
Lemma trimStart_fixed (c : N) (s : t) :
  is_white_space c = false -> trimStart (c :: s) = c :: s.
Proof. intros H. cbn. rewrite H. reflexivity. Qed.

Lemma trimStart_idempotent (s : t) : trimStart (trimStart s) = trimStart s.
Proof.
  destruct (trimStart s) as [|c r] eqn:E; [reflexivity|].
  apply trimStart_fixed. exact (TrimFacts.trimStart_head _ E).
Qed.

Lemma trim_idempotent (s : t) : trim (trim s) = trim s.
Proof.
  unfold trim, trimEnd.
  set (u := trimStart s).
  destruct (trimStart (rev u)) as [|d v] eqn:Ev; [reflexivity|].
  (* rev u = ws ++ d :: v, so u = rev (d :: v) ++ rev ws *)
  destruct (trimStart_split (rev u)) as (ws & Eu & Hws). rewrite Ev in Eu.
  assert (Hu : u = rev (d :: v) ++ rev ws).
  { rewrite <- rev_app_distr, <- Eu, rev_involutive. reflexivity. }
  assert (Hhead : trimStart (rev (d :: v)) = rev (d :: v)).
  { destruct (rev (d :: v)) as [|x r] eqn:Er.
    - reflexivity.
    - apply trimStart_fixed. rewrite Hu in *. subst u.
      cbn [app] in Hu.
      exact (TrimFacts.trimStart_head _ Hu). }
  rewrite Hhead, rev_involutive.
  rewrite (@trimStart_fixed d v (TrimFacts.trimStart_head _ Ev)). reflexivity.
Qed.

End TrimIdempotent.

(** ** Swap and clear, composed *)

(** X1.  Swapping twice gives back the page as it was: languages, texts
    and everything else. *)
Theorem swap_twice_restores (w : World) (net : Request -> Settled)
        (env : World -> World) :
  fst (invoke swapLanguages net env (fst (invoke swapLanguages net env w))) = w.
Proof.
  destruct w as [[i o sl tl l e cp k tk] st rq cs]. reflexivity.
Qed.

(** X2.  After Clear the Translate and Copy buttons are disabled and no
    error box is shown, whatever the page held. *)
Theorem clear_disables_buttons (w : World) (net : Request -> Settled)
        (env : World -> World) :
  let c := ui (fst (invoke (fun _ => clearText) net env w)) in
  translate_disabled c = Some true
  /\ copy_disabled c = true
  /\ error_box c = false.
Proof.
  unfold invoke, clearText, translate_disabled. cbn.
  destruct (isLoading (ui w)); auto.
Qed.

(** ** Saving a credential, continued *)

(** X3.  "Save Key" with an empty or white-space-only field does nothing:
    nothing is stored and no cell changes. *)
Theorem saveKey_blank_ignored (w : World) (net : Request -> Settled)
        (env : World -> World) :
  JsString.blank (tempKey (ui w)) = true ->
  invoke saveKey net env w = (w, Returned tt).
Proof.
  intros Hb. unfold invoke, saveKey.
  rewrite (TrimFacts.trim_blank _ Hb). reflexivity.
Qed.

Lemma saveKey_blank_ignored_witness :
  invoke saveKey (fun _ => Fulfilled JNull) quiet blank_key_world
  = (blank_key_world, Returned tt).
Proof.
  apply (saveKey_blank_ignored blank_key_world (fun _ => Fulfilled JNull) quiet).
  reflexivity.
Defined.

Lemma getItem_setItem (k v : jsstring) (st : list (jsstring * jsstring)) :
  getItem k (setItem k v st) = JStr v.
Proof. unfold setItem. cbn [getItem]. rewrite eqb_refl. reflexivity. Qed.

(** X4.  "Save Key" with a key in the field makes the trimmed key the
    credential in use, empties the field and the error, hides the banner,
    leaves the texts and languages alone, and stores the key so that the
    next start without a build-time value finds exactly this credential. *)
Theorem saveKey_round_trip (w : World) (net : Request -> Settled)
        (env : World -> World) :
  JsString.trim (tempKey (ui w)) <> [] ->
  let w' := fst (invoke saveKey net env w) in
  let k := JsString.trim (tempKey (ui w)) in
  (apiKey (ui w') = k /\ tempKey (ui w') = [] /\ error (ui w') = []
   /\ key_banner (ui w') = false)
  /\ (inputText (ui w') = inputText (ui w)
      /\ translatedText (ui w') = translatedText (ui w)
      /\ sourceLang (ui w') = sourceLang (ui w)
      /\ targetLang (ui w') = targetLang (ui w)
      /\ isLoading (ui w') = isLoading (ui w)
      /\ requests w' = requests w)
  /\ initialApiKey None (storage w') = Some (apiKey (ui w')).
Proof.
  intros Hk. unfold invoke, saveKey, key_banner.
  destruct (JsString.trim (tempKey (ui w))) as [|x k] eqn:E; [contradiction|].
  cbn [truthy negb bind perform run fst apply_effect set_ui ui storage
       requests apiKey tempKey error inputText translatedText sourceLang
       targetLang isLoading].
  repeat split.
  unfold initialApiKey. rewrite getItem_setItem. cbn [js_or truthy call_trim].
  rewrite <- E, TrimIdempotent.trim_idempotent. reflexivity.
Qed.

Lemma saveKey_round_trip_witness :
  initialApiKey None (storage (fst (invoke saveKey (fun _ => Fulfilled JNull)
                                           quiet saving_world)))
  = Some (js "abc123").
Proof.
  apply (saveKey_round_trip saving_world (fun _ => Fulfilled JNull) quiet).
  vm_compute. discriminate.
Defined.

(** X5.  Once a key is saved, translating a non-blank text no longer
    reports a missing credential: one request is sent, and its
    [X-RapidAPI-Key] header is the trimmed key that was typed. *)
Theorem saveKey_then_translate (w : World) (s : jsstring)
        (net : Request -> Settled) (env : World -> World) :
  JsString.trim (tempKey (ui w)) <> [] ->
  inputText (ui w) = JStr s ->
  JsString.trim s <> [] ->
  let w1 := fst (invoke saveKey net env w) in
  let w2 := fst (invoke translateText net quiet w1) in
  requests w2 = options (ui w1) :: requests w
  /\ In (js "X-RapidAPI-Key", JsString.trim (tempKey (ui w)))
        (headers (options (ui w1))).
Proof.
  intros Hk Htext Htrim w1 w2.
  destruct (saveKey_persists w net env Hk) as (_ & Hkey & Hreq).
  cbn zeta in Hkey, Hreq. fold w1 in Hkey, Hreq.
  assert (Htext1 : inputText (ui w1) = JStr s).
  { subst w1. unfold invoke, saveKey.
    destruct (JsString.trim (tempKey (ui w))); [contradiction | exact Htext]. }
  assert (Hkey1 : apiKey (ui w1) <> []) by (rewrite Hkey; exact Hk).
  split.
  - subst w2. rewrite (translate_sends_request w1 net Htext1 Htrim Hkey1).
    rewrite Hreq. reflexivity.
  - cbn [options headers]. rewrite Hkey. right. left. reflexivity.
Qed.

Lemma saveKey_then_translate_witness :
  List.length (requests
            (fst (invoke translateText (fun _ => Fulfilled hola_response) quiet
                         (fst (invoke saveKey (fun _ => Fulfilled hola_response)
                                      quiet saving_world))))) = 1.
Proof.
  assert (Hk : JsString.trim (tempKey (ui saving_world)) <> [])
    by (vm_compute; discriminate).
  assert (Ht : JsString.trim (js "Good morning") <> [])
    by (vm_compute; discriminate).
  rewrite (proj1 (saveKey_then_translate saving_world
                    (fun _ => Fulfilled hola_response) quiet Hk eq_refl Ht)).
  reflexivity.
Defined.

(** ** The credential at startup, continued *)

(** The initialiser as a formula. *)
Lemma initialApiKey_eq (injected : option jsstring)
      (localStorage : list (jsstring * jsstring)) :
  initialApiKey injected localStorage
  = Some (JsString.trim (first_present injected (persisted_key localStorage))).
Proof.
  unfold initialApiKey, persisted_key. rewrite js_empty.
  destruct (getItem_cases (js "rapidapi_key") localStorage) as [E | [v E]];
    rewrite E;
    destruct injected as [[|c s]|]; try destruct v as [|d v]; reflexivity.
Qed.

(** X6.  The initial credential never throws and never carries leading or
    trailing white space, whatever the build and the storage hold; and it
    is empty, so that the banner asks for a key, exactly when the source
    that takes precedence is blank. *)
Theorem initial_credential_trimmed (injected : option jsstring)
        (localStorage : list (jsstring * jsstring)) :
  exists key,
    initialApiKey injected localStorage = Some key
    /\ JsString.trim key = key
    /\ (key_banner (initialState key) = true
        <-> JsString.blank (first_present injected (persisted_key localStorage))
            = true).
Proof.
  rewrite initialApiKey_eq. eexists. split; [reflexivity|]. split.
  - apply TrimIdempotent.trim_idempotent.
  - unfold key_banner. cbn [initialState apiKey].
    rewrite <- TrimFacts.trim_nil_iff.
    destruct (JsString.trim _); cbn; split; congruence.
Qed.

(** X7.  A build-time value made of white space only counts as present:
    the credential is then empty, and a key kept in the storage is not
    used. *)
Theorem blank_injected_hides_persisted (s : jsstring)
        (localStorage : list (jsstring * jsstring)) :
  s <> [] ->
  JsString.blank s = true ->
  initialApiKey (Some s) localStorage = Some [].
Proof.
  intros Hs Hb. unfold initialApiKey.
  destruct s as [|c s]; [contradiction|].
  cbn [js_or truthy call_trim]. rewrite (TrimFacts.trim_blank _ Hb).
  reflexivity.
Qed.

Lemma blank_injected_hides_persisted_witness :
  initialApiKey (Some (js "  ")) stored_key = Some []
  /\ initialApiKey None stored_key = Some (js "abc123").
Proof.
  split.
  - apply (@blank_injected_hides_persisted (js "  ") stored_key).
    + vm_compute. discriminate.
    + reflexivity.
  - reflexivity.
Defined.

(** ** The Translate button *)

(** X8.  When the Translate button is enabled, [translateText] neither
    throws nor reports an empty input: without a credential it reports the
    missing key and sends nothing, otherwise it raises the loading flag,
    clears the error, sends the request and waits. *)
Theorem enabled_translate (c : State) (w : World) :
  translate_disabled c = Some false ->
  (apiKey c = []
   /\ start (translateText c) w
      = (apply_effect (SetError (message MissingCredential)) w,
         Finished (Returned tt)))
  \/ (apiKey c <> []
      /\ exists k, start (translateText c) w = (sent c w, Waiting (options c) k)).
Proof.
  unfold translate_disabled. destruct (isLoading c); [discriminate|].
  destruct (inputText c) as [| | | |s| |] eqn:Htext; try discriminate.
  cbn [call_trim]. intros H.
  assert (Htrim : JsString.trim s <> []).
  { destruct (JsString.trim s); [discriminate H | discriminate]. }
  destruct (apiKey c) as [|x k] eqn:Hkey.
  - left. split; [reflexivity|].
    rewrite (translateText_no_key _ Htext Htrim Hkey). reflexivity.
  - right. split; [discriminate|].
    assert (Hne : apiKey c <> []) by (rewrite Hkey; discriminate).
    rewrite (translateText_ready _ Htext Htrim Hne).
    cbn [start try_finally try_catch bind await_request]. fold (sent c w).
    eexists. reflexivity.
Qed.

Lemma enabled_translate_witness :
  exists k, start (translateText (ui ready_world)) ready_world
            = (sent (ui ready_world) ready_world,
               Waiting (options (ui ready_world)) k).
Proof.
  destruct (@enabled_translate (ui ready_world) ready_world eq_refl)
    as [[H _] | [_ H]].
  - discriminate H.
  - exact H.
Defined.

(** ** Whatever the request throws *)

(** X9.  The [catch] block copes with any thrown value, an object or not:
    the handler logs it, returns normally with the loading flag down and
    one of its three messages in the error cell; and a status that is not a
    number -- missing, or say a string -- gives the generic message. *)
Theorem rejection_always_handled (w : World) (s : jsstring)
        (net : Request -> Settled) (env : World -> World) (err : JsValue) :
  inputText (ui w) = JStr s ->
  JsString.trim s <> [] ->
  apiKey (ui w) <> [] ->
  net (options (ui w)) = Rejected err ->
  let w' := fst (invoke translateText net env w) in
  snd (invoke translateText net env w) = Returned tt
  /\ isLoading (ui w') = false
  /\ In (error (ui w')) [msg_authorization; msg_rate_limit; msg_failed]
  /\ console w' = (js "Translation error:", err) :: console (env (sent (ui w) w))
  /\ ((forall x, err ?. "response" ?. "status" <> JNum x) ->
      error (ui w') = msg_failed).
Proof.
  intros Htext Htrim Hkey Hnet w'. subst w'. unfold invoke.
  rewrite (run_translateText_ready _ Htext Htrim Hkey), Hnet.
  cbn [fst snd apply_effect set_ui ui error isLoading console].
  split; [reflexivity|]. split; [reflexivity|]. split; [|split].
  - unfold caught_message.
    destruct (strict_eq_num _ 401 || strict_eq_num _ 403); [left; reflexivity|].
    destruct (strict_eq_num _ 429); cbn; auto.
  - reflexivity.
  - intros Hnum. unfold caught_message.
    destruct (err ?. "response" ?. "status") as [| | |x| | |];
      try reflexivity.
    exfalso. apply (Hnum x). reflexivity.
Qed.

Lemma rejection_always_handled_witness :
  error (ui (fst (invoke translateText (fun _ => Rejected JNull) quiet ready_world)))
  = msg_failed
  /\ error (ui (fst (invoke translateText
                       (fun _ => Rejected
                          (JObj [(js "response",
                                  JObj [(js "status", JStr (js "401"))])]))
                       quiet ready_world)))
     = msg_failed.
Proof.
  assert (Htrim : JsString.trim (js "Hello") <> []) by (vm_compute; discriminate).
  assert (Hkey : apiKey (ui ready_world) <> []) by (vm_compute; discriminate).
  split.
  - apply (rejection_always_handled ready_world (fun _ => Rejected JNull) quiet
             eq_refl Htrim Hkey eq_refl).
    intros x. discriminate.
  - apply (rejection_always_handled ready_world
             (fun _ => Rejected
                (JObj [(js "response", JObj [(js "status", JStr (js "401"))])]))
             quiet eq_refl Htrim Hkey eq_refl).
    intros x. vm_compute. discriminate.
Defined.

(** ** Copying the translation *)

Lemma nth_error_last (A : Type) (l : list A) (x : A) :
  nth_error (l ++ [x]) (List.length l) = Some x.
Proof. induction l as [|y l IH]; [reflexivity | exact IH]. Qed.

Lemma remove_nth_last (A : Type) (l : list A) (x : A) :
  remove_nth (List.length l) (l ++ [x]) = l.
Proof.
  induction l as [|y l IH]; [reflexivity|]. cbn. rewrite IH. reflexivity.
Qed.

(** What a click on an enabled Copy button does at once, and what remains
    to be done when the write settles. *)
Lemma launch_copyTranslated (c : State) (a : App) :
  copy_disabled c = false ->
  exists k,
    launch (copyTranslated c) a
    = (mkApp (world a) (pending a) (translatedText c :: writes a)
             (writing a ++ [k]) (timers a), None)
    /\ (forall v b,
          launch (k (Fulfilled v)) b
          = (mkApp (apply_effect (SetCopied true) (world b)) (pending b)
                   (writes b) (writing b) (timers b ++ [copied_timer]),
             Some (Returned tt)))
    /\ (forall e b, launch (k (Rejected e)) b = (b, Some (Returned tt))).
Proof.
  unfold copy_disabled, copyTranslated. intros H.
  destruct (truthy (translatedText c)); [|discriminate H].
  cbn [negb await_writeText and_then script_try_catch launch].
  eexists. split; [reflexivity|]. split.
  - intros v b. reflexivity.
  - intros e b. reflexivity.
Qed.

(** X10.  A failed clipboard write is ignored: after the click and the
    rejection the page is as before -- no cell changed, no error shown, no
    timer set -- apart from the record of the attempted write. *)
Theorem copy_failure_ignored (a : App) (e : JsValue) :
  renders (ui (world a)) = true ->
  copy_disabled (ui (world a)) = false ->
  play [ClickCopy; Written (List.length (writing a)) (Rejected e)] a
  = Some (mkApp (world a) (pending a)
                (translatedText (ui (world a)) :: writes a)
                (writing a) (timers a)).
Proof.
  intros Hr Hc.
  destruct (launch_copyTranslated (ui (world a)) a Hc) as (k & E & _ & Hrej).
  cbn [play step]. rewrite Hr, Hc. cbn [andb negb]. rewrite E.
  cbn [fst writing world pending writes timers].
  rewrite nth_error_last, remove_nth_last, Hrej. reflexivity.
Qed.

Lemma copy_failure_ignored_witness :
  play [ClickCopy; Written 0 (Rejected JNull)] translated_app
  = Some (mkApp (world translated_app) [] [JStr (js "Hola")] [] []).
Proof.
  exact (copy_failure_ignored translated_app JNull eq_refl eq_refl).
Defined.

(** X11.  A successful copy raises [copied] and sets one timer; when the
    timer fires [copied] is down again.  Nothing else on the page changes
    and no request is sent. *)
Theorem copy_success_flashes (a : App) (v : JsValue) :
  renders (ui (world a)) = true ->
  copy_disabled (ui (world a)) = false ->
  exists a1 a2,
    play [ClickCopy; Written (List.length (writing a)) (Fulfilled v)] a = Some a1
    /\ a1 = mkApp (apply_effect (SetCopied true) (world a)) (pending a)
                  (translatedText (ui (world a)) :: writes a)
                  (writing a) (timers a ++ [copied_timer])
    /\ step (TimerFires (List.length (timers a))) a1 = Some a2
    /\ a2 = mkApp (apply_effect (SetCopied false) (world a)) (pending a)
                  (translatedText (ui (world a)) :: writes a)
                  (writing a) (timers a).
Proof.
  intros Hr Hc.
  destruct (launch_copyTranslated (ui (world a)) a Hc) as (k & E & Hok & _).
  eexists. eexists. split; [|split; [reflexivity|split]].
  - cbn [play step]. rewrite Hr, Hc. cbn [andb negb]. rewrite E.
    cbn [fst writing world pending writes timers].
    rewrite nth_error_last, remove_nth_last, Hok. reflexivity.
  - cbn [step timers]. rewrite nth_error_last, remove_nth_last. reflexivity.
  - reflexivity.
Qed.

Lemma copy_success_flashes_witness :
  exists a1 a2,
    play [ClickCopy; Written 0 (Fulfilled JUndefined)] translated_app = Some a1
    /\ copied (ui (world a1)) = true
    /\ step (TimerFires 0) a1 = Some a2
    /\ copied (ui (world a2)) = false.
Proof.
  destruct (copy_success_flashes translated_app JUndefined eq_refl eq_refl)
    as (a1 & a2 & H1 & E1 & H2 & E2).
  exists a1, a2. split; [exact H1|]. split; [rewrite E1; reflexivity|].
  split; [exact H2 | rewrite E2; reflexivity].
Defined.

(** ** The machine: what every history maintains *)

Lemma known_caught_message (err : JsValue) :
  known_message (caught_message err) = true.
Proof.
  unfold caught_message.
  destruct (strict_eq_num _ 401 || strict_eq_num _ 403); [reflexivity|].
  destruct (strict_eq_num _ 429); reflexivity.
Qed.

(** Sending the request, and what has been left to resume. *)
Lemma start_translateText_ready (c : State) (s : jsstring) (w : World) :
  inputText c = JStr s ->
  JsString.trim s <> [] ->
  apiKey c <> [] ->
  exists k,
    start (translateText c) w = (sent c w, Waiting (options c) k)
    /\ resumes_cleanly k.
Proof.
  intros Htext Htrim Hkey.
  rewrite (translateText_ready _ Htext Htrim Hkey).
  cbn [start try_finally try_catch bind await_request]. fold (sent c w).
  eexists. split; [reflexivity|].
  intros [response|err] w0.
  - cbn [bind try_catch try_finally perform start].
    eexists. split; [reflexivity|].
    cbn [apply_effect set_ui ui isLoading error inputText translatedText].
    repeat split; [left; reflexivity | right].
    exists response. split; reflexivity.
  - cbn [bind try_catch try_finally]. unfold on_error.
    cbn [bind perform].
    exists (apply_effect (SetIsLoading false)
              (apply_effect (SetError (caught_message err))
                 (apply_effect (ConsoleError (js "Translation error:") err) w0))).
    split.
    + unfold caught_message.
      destruct (strict_eq_num _ 401 || strict_eq_num _ 403); [reflexivity|].
      destruct (strict_eq_num _ 429); reflexivity.
    + cbn [apply_effect set_ui ui isLoading error inputText translatedText].
      repeat split; [right; apply known_caught_message | left; reflexivity].
Qed.

Lemma blank_of_trim (s : jsstring) :
  JsString.trim s <> [] -> JsString.blank s = false.
Proof.
  intros H. destruct (JsString.blank s) eqn:E; [|reflexivity].
  exfalso. apply H. apply TrimFacts.trim_blank. exact E.
Qed.

(** The request [options] describes is well formed when the page is. *)
Lemma well_formed_options (c : State) (s : jsstring) :
  inputText c = JStr s ->
  JsString.trim s <> [] ->
  apiKey c <> [] ->
  JsString.trim (apiKey c) = apiKey c ->
  is_option_value (sourceLang c) = true ->
  is_option_value (targetLang c) = true ->
  well_formed (options c) = true.
Proof.
  intros Htext Htrim Hkey Htk Hs Ht.
  unfold well_formed, options. cbn [method url headers data].
  rewrite Htext, Hs, Ht, Htk, !eqb_refl, (blank_of_trim _ Htrim).
  apply jsstring_eqb_neq in Hkey. rewrite Hkey. reflexivity.
Qed.

Lemma Forall_remove_nth (A : Type) (P : A -> Prop) (l : list A) (i : nat) :
  Forall P l -> Forall P (remove_nth i l).
Proof.
  intros H. revert i. induction H as [|x l Hx Hl IH]; intros i.
  - destruct i; constructor.
  - destruct i; cbn; [exact Hl | constructor; [exact Hx | apply IH]].
Qed.

Lemma Forall_nth_error (A : Type) (P : A -> Prop) (l : list A) (i : nat) (x : A) :
  Forall P l -> nth_error l i = Some x -> P x.
Proof.
  intros H E. apply nth_error_In in E.
  exact (proj1 (Forall_forall P l) H x E).
Qed.

(** A page keeps the invariant when what is awaited stays the same and the
    guarded cells stay good. *)
Lemma invariant_frame (a a' : App) :
  invariant a ->
  pending a' = pending a ->
  isLoading (ui (world a')) = isLoading (ui (world a)) ->
  is_option_value (sourceLang (ui (world a'))) = true ->
  is_option_value (targetLang (ui (world a'))) = true ->
  known_message (error (ui (world a'))) = true ->
  JsString.trim (apiKey (ui (world a'))) = apiKey (ui (world a')) ->
  requests (world a') = requests (world a) ->
  forallb truthy (writes a') = true ->
  Forall resumes_copy (writing a') ->
  Forall (fun t => t = copied_timer) (timers a') ->
  invariant a'.
Proof.
  intros [Hp Hs Ht He Hk Hr Hw Hwr Htm] Ep El Hs' Ht' He' Hk' Er Hw' Hwr' Htm'.
  constructor; try assumption.
  - rewrite Ep, El. exact Hp.
  - rewrite Er. exact Hr.
Qed.

Lemma boot_invariant (injected : option jsstring)
      (localStorage : list (jsstring * jsstring)) (a : App) :
  boot injected localStorage = Some a -> invariant a.
Proof.
  unfold boot.
  rewrite initialApiKey_eq. intros H. injection H as <-.
  constructor; cbn [world ui pending writes writing timers initialState
                    isLoading sourceLang targetLang error apiKey requests];
    try reflexivity; try constructor.
  apply TrimIdempotent.trim_idempotent.
Qed.

(** What an enabled Translate button knows about the page. *)
Lemma translate_enabled_inv (c : State) :
  translate_disabled c = Some false ->
  isLoading c = false
  /\ exists s, inputText c = JStr s /\ JsString.trim s <> [].
Proof.
  unfold translate_disabled. destruct (isLoading c); [discriminate|].
  destruct (inputText c) as [| | | |s| |]; try discriminate.
  cbn [call_trim]. intros H. split; [reflexivity|]. exists s.
  split; [reflexivity|]. destruct (JsString.trim s); [discriminate H | discriminate].
Qed.

Ltac user_event H :=
  match type of H with
  | (if ?g then _ else _) = Some _ =>
      destruct g; [injection H as <- | discriminate H]
  end.

Ltac frame Ha :=
  apply (@invariant_frame _ _ Ha);
  cbn [with_world world ui apply_effect set_ui pending writes writing timers
       isLoading sourceLang targetLang error apiKey requests fst snd];
  try reflexivity; try (destruct Ha; assumption).

Lemma step_invariant (ev : Event) (a a' : App) :
  invariant a -> step ev a = Some a' -> invariant a'.
Proof.
  intros Ha H. destruct ev; cbn [step] in H.
  - (* TypeText *) user_event H. frame Ha.
  - (* SelectSource *)
    destruct (is_option_value value) eqn:Hv;
      [|rewrite andb_false_r in H; discriminate H].
    user_event H. frame Ha.
  - (* SelectTarget *)
    destruct (is_option_value value) eqn:Hv;
      [|rewrite andb_false_r in H; discriminate H].
    user_event H. frame Ha.
  - (* ClickSwap *) user_event H. frame Ha.
  - (* ClickTranslate *)
    destruct (translate_disabled (ui (world a))) as [[|]|] eqn:Hd;
      try discriminate H.
    injection H as <-.
    destruct (translate_enabled_inv _ Hd) as (Hl & s & Htext & Htrim).
    pose proof (inv_pending Ha) as Hp.
    destruct (pending a) as [|k [|k' rest]] eqn:Ep;
      [| destruct Hp as [Hp _]; congruence | contradiction].
    destruct (apiKey (ui (world a))) as [|x key] eqn:Hkey.
    + unfold handle. rewrite (translateText_no_key _ Htext Htrim Hkey).
      cbn [start perform]. frame Ha.
    + assert (Hne : apiKey (ui (world a)) <> []) by (rewrite Hkey; discriminate).
      destruct (@start_translateText_ready _ _ (world a) Htext Htrim Hne)
        as (k & E & Hk).
      unfold handle. rewrite E, Ep.
      destruct Ha as [_ Hs Ht He Hky Hr Hw Hwr Htm].
      constructor; cbn; try assumption; try reflexivity.
      * split; [reflexivity | exact Hk].
      * rewrite Hr, andb_true_r.
        apply (well_formed_options _ Htext Htrim Hne Hky Hs Ht).
  - (* ClickClear *) user_event H. frame Ha.
  - (* ClickCopy *)
    destruct (copy_disabled (ui (world a))) eqn:Hc;
      [rewrite andb_false_r in H; discriminate H|].
    user_event H.
    destruct (launch_copyTranslated (ui (world a)) a Hc) as (k & E & Hok & Hrej).
    rewrite E. cbn [fst]. apply (@invariant_frame _ _ Ha); cbn; try reflexivity;
      try (destruct Ha; assumption).
    + unfold copy_disabled in Hc. apply negb_false_iff in Hc. rewrite Hc.
      exact (inv_writes Ha).
    + apply Forall_app. split; [exact (inv_writing Ha)|].
      constructor; [|constructor].
      intros [v|e] b; eexists.
      * rewrite Hok. split; [reflexivity|]. cbn.
        split; [reflexivity|]. split; [reflexivity|]. split; [reflexivity|].
        right. split; reflexivity.
      * rewrite Hrej. split; [reflexivity|].
        split; [reflexivity|]. split; [reflexivity|]. split; [reflexivity|].
        left. split; reflexivity.
  - (* TypeKey *) user_event H. frame Ha.
  - (* ClickSaveKey *)
    user_event H. unfold handle, saveKey.
    destruct (JsString.trim (tempKey (ui (world a)))) as [|x k] eqn:E.
    + cbn [truthy negb start]. frame Ha.
    + cbn [truthy negb bind perform start]. frame Ha.
      rewrite <- E. apply TrimIdempotent.trim_idempotent.
  - (* Settles *)
    destruct (nth_error (pending a) i) as [k|] eqn:En; [|discriminate H].
    injection H as <-.
    pose proof (inv_pending Ha) as Hp.
    destruct (pending a) as [|k0 [|k1 rest]] eqn:Ep;
      [destruct i; discriminate En | | contradiction].
    destruct i as [|i]; [|destruct i; discriminate En].
    injection En as ->. destruct Hp as [Hl Hk].
    destruct (Hk s (world a)) as (w' & E & Hl' & Hg & Hin & Herr & Hout).
    unfold handle. cbn [world remove_nth]. rewrite E.
    unfold guarded in Hg. injection Hg as Hs Ht Hky Hr Hst.
    destruct Ha as [_ Hs0 Ht0 He0 Hky0 Hr0 Hw0 Hwr0 Htm0].
    constructor;
      cbn [with_world world ui pending writes writing timers remove_nth];
      rewrite ?Hs, ?Ht, ?Hky, ?Hr; try assumption.
    destruct Herr as [-> | Hkn]; assumption.
  - (* Written *)
    destruct (nth_error (writing a) i) as [k|] eqn:En; [|discriminate H].
    injection H as <-.
    pose proof (Forall_nth_error _ (inv_writing Ha) En) as Hk.
    destruct (Hk s (mkApp (world a) (pending a) (writes a)
                          (remove_nth i (writing a)) (timers a)))
      as (b & E & Hp & Hw & Hwr & Hcase).
    rewrite E. cbn [fst]. cbn in Hp, Hw, Hwr, Hcase.
    assert (Hrm : Forall resumes_copy (remove_nth i (writing a)))
      by (apply Forall_remove_nth; exact (inv_writing Ha)).
    destruct Hcase as [[Ew Et] | [Ew Et]];
      apply (@invariant_frame _ _ Ha); rewrite ?Ew, ?Et, ?Hp, ?Hw, ?Hwr; cbn;
      try reflexivity; try (destruct Ha; assumption).
    apply Forall_app. split; [exact (inv_timers Ha) | repeat constructor].
  - (* TimerFires *)
    destruct (nth_error (timers a) i) as [[ms callback]|] eqn:En;
      [|discriminate H].
    injection H as <-.
    pose proof (Forall_nth_error _ (inv_timers Ha) En) as Ht.
    unfold copied_timer in Ht. injection Ht as -> ->.
    unfold handle. cbn [start perform world]. frame Ha.
    apply Forall_remove_nth. exact (inv_timers Ha).
Qed.

Lemma play_invariant (evs : list Event) (a a' : App) :
  invariant a -> play evs a = Some a' -> invariant a'.
Proof.
  revert a. induction evs as [|ev evs IH]; intros a Ha H; cbn [play] in H.
  - injection H as <-. exact Ha.
  - destruct (step ev a) as [a1|] eqn:E; [|discriminate H].
    exact (IH a1 (step_invariant ev Ha E) H).
Qed.

Lemma history_invariant (injected : option jsstring)
      (localStorage : list (jsstring * jsstring))
      (evs : list Event) (a0 a : App) :
  boot injected localStorage = Some a0 -> play evs a0 = Some a -> invariant a.
Proof.
  intros Hb Hp. exact (play_invariant evs (boot_invariant _ _ Hb) Hp).
Qed.

Lemma session_boots : boot (Some (js " key ")) [] = Some session_start.
Proof. vm_compute. reflexivity. Qed.

Lemma session_plays : play session session_start = Some session_end.
Proof. vm_compute. reflexivity. Qed.

Section Histories.

Variables (injected : option jsstring)
          (localStorage : list (jsstring * jsstring))
          (evs : list Event) (a0 a : App).
Hypothesis Hboot : boot injected localStorage = Some a0.
Hypothesis Hplay : play evs a0 = Some a.

(** X12.  At most one request is outstanding at any time, the loading
    flag is up exactly while one is, and the Translate button cannot be
    clicked meanwhile. *)
Theorem one_request_in_flight :
  (List.length (pending a) <= 1)%nat
  /\ (isLoading (ui (world a)) = true <-> pending a <> [])
  /\ (pending a <> [] -> step ClickTranslate a = None).
Proof.
  pose proof (inv_pending (history_invariant _ _ _ Hboot Hplay)) as Hp.
  destruct (pending a) as [|k [|k' rest]]; [| destruct Hp as [Hl _] | contradiction].
  - split; [cbn; lia|]. split; [|congruence].
    rewrite Hp. split; [discriminate | congruence].
  - split; [cbn; lia|]. split; [split; [discriminate | intros _; exact Hl]|].
    intros _. cbn [step]. unfold translate_disabled. rewrite Hl. reflexivity.
Qed.

(** X13.  The loading state never sticks: whenever the flag is up there
    is a request whose settlement, whatever it is, brings the flag down
    and leaves nothing outstanding. *)
Theorem loading_never_sticks :
  isLoading (ui (world a)) = true ->
  forall s : Settled,
  exists a', step (Settles 0 s) a = Some a'
             /\ isLoading (ui (world a')) = false
             /\ pending a' = [].
Proof.
  intros Hl s.
  pose proof (inv_pending (history_invariant _ _ _ Hboot Hplay)) as Hp.
  destruct (pending a) as [|k [|k' rest]] eqn:Ep;
    [congruence | destruct Hp as [_ Hk] | contradiction].
  destruct (Hk s (world a)) as (w' & E & Hl' & _).
  cbn [step]. rewrite Ep. cbn [nth_error remove_nth]. unfold handle.
  cbn [world]. rewrite E. eexists. split; [reflexivity|].
  split; [exact Hl' | reflexivity].
Qed.

(** X14.  Both language selections are always codes of the language
    list. *)
Theorem languages_always_listed :
  In (sourceLang (ui (world a))) (map code LANGUAGES)
  /\ In (targetLang (ui (world a))) (map code LANGUAGES).
Proof.
  pose proof (history_invariant _ _ _ Hboot Hplay) as Ha.
  assert (H : forall v, is_option_value v = true -> In v (map code LANGUAGES)).
  { intros v Hv. apply existsb_exists in Hv as (x & Hin & Hx).
    apply jsstring_eqb_eq in Hx. subst x. exact Hin. }
  split; apply H; [exact (inv_source Ha) | exact (inv_target Ha)].
Qed.

(** X15.  The error cell is always empty or the message of a missing
    credential, an authorization failure, a rate limit or a failed
    translation.  The empty-input message never shows: the Translate button
    is disabled while the text is blank. *)
Theorem error_always_known :
  error (ui (world a)) = []
  \/ exists k, k <> EmptyInput /\ error (ui (world a)) = message k.
Proof.
  pose proof (inv_error (history_invariant _ _ _ Hboot Hplay)) as He.
  apply existsb_exists in He as (m & Hin & Hm).
  apply jsstring_eqb_eq in Hm. rewrite Hm.
  cbn in Hin.
  destruct Hin as [<- | [<- | [<- | [<- | [<- | []]]]]];
    [left; reflexivity | right ..].
  - exists MissingCredential. split; [discriminate | reflexivity].
  - exists AuthorizationFailed. split; [discriminate | reflexivity].
  - exists RateLimited. split; [discriminate | reflexivity].
  - exists TranslationFailed. split; [discriminate | reflexivity].
Qed.

(** X16.  Every request ever sent is a POST to the fixed endpoint whose
    key header is a non-empty credential without surrounding white space,
    whose two languages are listed codes and whose text is not blank. *)
Theorem requests_always_well_formed :
  forall r, In r (requests (world a)) -> well_formed r = true.
Proof.
  pose proof (inv_requests (history_invariant _ _ _ Hboot Hplay)) as Hr.
  exact (proj1 (forallb_forall _ _) Hr).
Qed.

(** X17.  The credential in use never has leading or trailing white
    space. *)
Theorem credential_always_trimmed :
  JsString.trim (apiKey (ui (world a))) = apiKey (ui (world a)).
Proof. exact (inv_key (history_invariant _ _ _ Hboot Hplay)). Qed.


End Histories.

Ltac evaluated := vm_compute; reflexivity.

Lemma one_request_in_flight_witness :
  (List.length (pending session_end) <= 1)%nat
  /\ step ClickTranslate session_end = None.
Proof.
  assert (Hb : boot (Some (js " key ")) [] = Some session_start) by evaluated.
  assert (Hp : play session session_start = Some session_end) by evaluated.
  destruct (one_request_in_flight _ _ _ Hb Hp) as (H1 & _ & H3).
  split; [exact H1 | apply H3; vm_compute; discriminate].
Defined.

Lemma loading_never_sticks_witness :
  exists a', step (Settles 0 (Rejected JNull)) session_end = Some a'
             /\ isLoading (ui (world a')) = false
             /\ pending a' = [].
Proof.
  assert (Hb : boot (Some (js " key ")) [] = Some session_start) by evaluated.
  assert (Hp : play session session_start = Some session_end) by evaluated.
  assert (Hl : isLoading (ui (world session_end)) = true) by evaluated.
  exact (loading_never_sticks _ _ _ Hb Hp Hl (Rejected JNull)).
Defined.

Lemma languages_always_listed_witness :
  In (sourceLang (ui (world session_end))) (map code LANGUAGES)
  /\ In (targetLang (ui (world session_end))) (map code LANGUAGES).
Proof.
  assert (Hb : boot (Some (js " key ")) [] = Some session_start) by evaluated.
  assert (Hp : play session session_start = Some session_end) by evaluated.
  exact (languages_always_listed _ _ _ Hb Hp).
Defined.

Lemma error_always_known_witness :
  error (ui (world session_end)) = []
  \/ exists k, k <> EmptyInput /\ error (ui (world session_end)) = message k.
Proof.
  assert (Hb : boot (Some (js " key ")) [] = Some session_start) by evaluated.
  assert (Hp : play session session_start = Some session_end) by evaluated.
  exact (error_always_known _ _ _ Hb Hp).
Defined.

Lemma requests_always_well_formed_witness :
  forallb well_formed (requests (world session_end)) = true.
Proof.
  assert (Hb : boot (Some (js " key ")) [] = Some session_start) by evaluated.
  assert (Hp : play session session_start = Some session_end) by evaluated.
  apply forallb_forall. exact (requests_always_well_formed _ _ _ Hb Hp).
Defined.

Lemma credential_always_trimmed_witness :
  JsString.trim (apiKey (ui (world session_end)))
  = apiKey (ui (world session_end)).
Proof.
  assert (Hb : boot (Some (js " key ")) [] = Some session_start) by evaluated.
  assert (Hp : play session session_start = Some session_end) by evaluated.
  exact (credential_always_trimmed _ _ _ Hb Hp).
Defined.


(** ** The machine: what a step leaves alone *)

Lemma getItem_setItem_other (k k' v : jsstring)
      (st : list (jsstring * jsstring)) :
  k <> k' -> getItem k (setItem k' v st) = getItem k st.
Proof.
  intros Hne. unfold setItem. cbn [getItem].
  apply jsstring_eqb_neq in Hne. rewrite Hne.
  induction st as [|[k1 v1] st IH]; [reflexivity|].
  cbn [filter fst getItem].
  destruct (JsString.eqb k' k1) eqn:E1; cbn [negb].
  - apply jsstring_eqb_eq in E1. subst k1. rewrite Hne. exact IH.
  - cbn [getItem]. rewrite IH. reflexivity.
Qed.

Lemma key_banner_empty (c : State) : key_banner c = true -> apiKey c = [].
Proof.
  unfold key_banner. destruct (apiKey c); [reflexivity | discriminate].
Qed.

Ltac keeps :=
  cbn [with_world world ui apply_effect set_ui storage apiKey inputText
       translatedText fst snd];
  unfold texts_are_strings;
  cbn [with_world world ui apply_effect set_ui storage apiKey inputText
       translatedText is_string];
  try tauto.

(** One step leaves a present credential as it is, touches no storage key
    but the credential's, and keeps the texts strings when the response, if
    any, carries a text. *)
Lemma step_keeps (ev : Event) (a a' : App) :
  invariant a ->
  step ev a = Some a' ->
  (apiKey (ui (world a)) <> [] ->
   apiKey (ui (world a')) = apiKey (ui (world a)))
  /\ (forall k, k <> js "rapidapi_key" ->
        getItem k (storage (world a')) = getItem k (storage (world a)))
  /\ (texts_are_strings (ui (world a)) -> answers_with_text ev = true ->
      texts_are_strings (ui (world a'))).
Proof.
  intros Ha H. destruct ev; cbn [step] in H.
  - user_event H. unfold handle. cbn [start changeInputText perform]. keeps.
  - user_event H. unfold handle. cbn [start changeSourceLang perform]. keeps.
  - user_event H. unfold handle. cbn [start changeTargetLang perform]. keeps.
  - user_event H. unfold handle. cbn [start swapLanguages bind perform]. keeps.
  - destruct (translate_disabled (ui (world a))) as [[|]|] eqn:Hd;
      try discriminate H.
    injection H as <-.
    destruct (translate_enabled_inv _ Hd) as (Hl & s & Htext & Htrim).
    destruct (apiKey (ui (world a))) as [|x key] eqn:Hkey.
    + unfold handle. rewrite (translateText_no_key _ Htext Htrim Hkey).
      cbn [start perform]. keeps.
    + assert (Hne : apiKey (ui (world a)) <> []) by (rewrite Hkey; discriminate).
      destruct (@start_translateText_ready _ _ (world a) Htext Htrim Hne)
        as (k & E & Hk).
      unfold handle. rewrite E. unfold sent. keeps.
  - user_event H. unfold handle. cbn [start clearText bind perform]. keeps.
  - destruct (copy_disabled (ui (world a))) eqn:Hc;
      [rewrite andb_false_r in H; discriminate H|].
    user_event H.
    destruct (launch_copyTranslated (ui (world a)) a Hc) as (k & E & _).
    rewrite E. keeps.
  - user_event H. unfold handle. cbn [start changeTempKey perform]. keeps.
  - destruct (key_banner (ui (world a))) eqn:Hb;
      [|rewrite andb_false_r in H; discriminate H].
    user_event H. apply key_banner_empty in Hb.
    unfold handle, saveKey.
    destruct (JsString.trim (tempKey (ui (world a)))) as [|x k] eqn:E.
    + cbn [truthy negb start]. keeps.
    + cbn [truthy negb bind perform start]. keeps.
      split; [congruence|]. split; [|tauto].
      intros k0 Hk0. apply getItem_setItem_other. exact Hk0.
  - destruct (nth_error (pending a) i) as [k|] eqn:En; [|discriminate H].
    injection H as <-.
    pose proof (inv_pending Ha) as Hp.
    destruct (pending a) as [|k0 [|k1 rest]] eqn:Ep;
      [destruct i; discriminate En | | contradiction].
    destruct i as [|i]; [|destruct i; discriminate En].
    injection En as ->. destruct Hp as [Hl Hk].
    destruct (Hk s (world a)) as (w' & E & Hl' & Hg & Hin & Herr & Hout).
    unfold handle. cbn [world remove_nth]. rewrite E.
    unfold guarded in Hg. injection Hg as Hs Ht Hky Hr Hst.
    cbn [with_world world]. rewrite Hky, Hst.
    split; [reflexivity|]. split; [reflexivity|].
    unfold texts_are_strings. rewrite Hin. intros [Hi Ho] Hans.
    split; [exact Hi|].
    destruct Hout as [-> | (response & -> & ->)]; [exact Ho | exact Hans].
  - destruct (nth_error (writing a) i) as [k|] eqn:En; [|discriminate H].
    injection H as <-.
    pose proof (Forall_nth_error _ (inv_writing Ha) En) as Hk.
    destruct (Hk s (mkApp (world a) (pending a) (writes a)
                          (remove_nth i (writing a)) (timers a)))
      as (b & E & _ & _ & _ & Hcase).
    rewrite E. cbn [fst]. cbn [world] in Hcase.
    destruct Hcase as [[-> _] | [-> _]]; keeps.
  - destruct (nth_error (timers a) i) as [[ms callback]|] eqn:En;
      [|discriminate H].
    injection H as <-.
    pose proof (Forall_nth_error _ (inv_timers Ha) En) as Ht.
    unfold copied_timer in Ht. injection Ht as -> ->.
    unfold handle. cbn [start perform world]. keeps.
Qed.

Lemma play_keeps (evs : list Event) (a a' : App) :
  invariant a ->
  play evs a = Some a' ->
  (apiKey (ui (world a)) <> [] ->
   apiKey (ui (world a')) = apiKey (ui (world a)))
  /\ (forall k, k <> js "rapidapi_key" ->
        getItem k (storage (world a')) = getItem k (storage (world a)))
  /\ (texts_are_strings (ui (world a)) -> forallb answers_with_text evs = true ->
      texts_are_strings (ui (world a'))).
Proof.
  revert a. induction evs as [|ev evs IH]; intros a Ha H; cbn [play] in H.
  - injection H as <-. tauto.
  - destruct (step ev a) as [a1|] eqn:E; [|discriminate H].
    destruct (step_keeps ev Ha E) as (K1 & S1 & T1).
    destruct (IH a1 (step_invariant ev Ha E) H) as (K2 & S2 & T2).
    split; [|split].
    + intros Hk. rewrite K2; rewrite (K1 Hk); [reflexivity | exact Hk].
    + intros k Hk. rewrite (S2 k Hk). exact (S1 k Hk).
    + intros Ht Hall. cbn [forallb] in Hall.
      apply andb_true_iff in Hall as [Hev Hrest]. exact (T2 (T1 Ht Hev) Hrest).
Qed.

Section HistoriesKeep.

Variables (injected : option jsstring)
          (localStorage : list (jsstring * jsstring))
          (evs : list Event) (a0 a : App).
Hypothesis Hboot : boot injected localStorage = Some a0.
Hypothesis Hplay : play evs a0 = Some a.

(** X19.  As long as every fulfilled response carries a string at
    [data.data.translatedText], or nothing there, both text areas hold
    strings and the component renders: the [trim] call of the render never
    throws. *)
Theorem renders_when_answers_are_text :
  forallb answers_with_text evs = true ->
  texts_are_strings (ui (world a)) /\ renders (ui (world a)) = true.
Proof.
  intros Hall.
  destruct (play_keeps evs (boot_invariant _ _ Hboot) Hplay) as (_ & _ & T).
  assert (H0 : texts_are_strings (ui (world a0))).
  { unfold boot in Hboot.
    destruct (initialApiKey injected localStorage); [|discriminate Hboot].
    injection Hboot as <-. split; reflexivity. }
  pose proof (T H0 Hall) as [Hi Ho]. split; [split; assumption|].
  unfold renders, translate_disabled.
  destruct (isLoading (ui (world a))); [reflexivity|].
  destruct (inputText (ui (world a))); try discriminate Hi. reflexivity.
Qed.

(** X20.  Nothing the page does touches a storage key other than the
    credential's: every other key reads as it did at startup. *)
Theorem other_storage_keys_untouched (k : jsstring) :
  k <> js "rapidapi_key" ->
  getItem k (storage (world a)) = getItem k localStorage.
Proof.
  intros Hk.
  destruct (play_keeps evs (boot_invariant _ _ Hboot) Hplay) as (_ & S & _).
  rewrite (S k Hk). unfold boot in Hboot.
  destruct (initialApiKey injected localStorage); [|discriminate Hboot].
  injection Hboot as <-. reflexivity.
Qed.

(** X21.  A credential that is present stays: once the key cell is not
    empty, no later history changes it, the banner with the key field
    being gone. *)
Theorem credential_is_fixed (more : list Event) (a2 : App) :
  apiKey (ui (world a)) <> [] ->
  play more a = Some a2 ->
  apiKey (ui (world a2)) = apiKey (ui (world a))
  /\ key_banner (ui (world a2)) = false.
Proof.
  intros Hk Hmore.
  destruct (play_keeps more (history_invariant _ _ _ Hboot Hplay) Hmore)
    as (K & _ & _).
  pose proof (K Hk) as E. split; [exact E|].
  unfold key_banner. rewrite E.
  destruct (apiKey (ui (world a))); [contradiction | reflexivity].
Qed.

End HistoriesKeep.

Lemma renders_when_answers_are_text_witness :
  renders (ui (world session_end)) = true.
Proof.
  assert (Hb : boot (Some (js " key ")) [] = Some session_start) by evaluated.
  assert (Hp : play session session_start = Some session_end) by evaluated.
  assert (Ha : forallb answers_with_text session = true) by evaluated.
  exact (proj2 (renders_when_answers_are_text _ _ _ Hb Hp Ha)).
Defined.

Lemma other_storage_keys_untouched_witness :
  getItem (js "theme") (storage (world saving_session_end)) = JStr (js "dark").
Proof.
  assert (Hb : boot (Some (js "  ")) stored_theme = Some keyless_start)
    by evaluated.
  assert (Hp : play saving_session keyless_start = Some saving_session_end)
    by evaluated.
  assert (Hk : js "theme" <> js "rapidapi_key") by (vm_compute; discriminate).
  exact (other_storage_keys_untouched _ _ _ Hb Hp Hk).
Defined.

Lemma credential_is_fixed_witness :
  apiKey (ui (world session_end)) = apiKey (ui (world session_start))
  /\ key_banner (ui (world session_end)) = false.
Proof.
  assert (Hb : boot (Some (js " key ")) [] = Some session_start) by evaluated.
  assert (Hp : play [] session_start = Some session_start) by reflexivity.
  assert (Hk : apiKey (ui (world session_start)) <> [])
    by (vm_compute; discriminate).
  assert (Hm : play session session_start = Some session_end) by evaluated.
  exact (@credential_is_fixed (Some (js " key ")) [] [] session_start
           session_start Hb Hp session session_end Hk Hm).
Defined.

(** ** Translating again *)

(** [run] is [start] followed by the resumption of what was left waiting. *)
Lemma run_start (A : Type) (p : Prog A) (net : Request -> Settled)
      (env : World -> World) (w : World) :
  run p net env w
  = match start p w with
    | (w1, Finished c) => (w1, c)
    | (w1, Waiting req k) => run (k (net req)) net env (env w1)
    end.
Proof.
  revert w. induction p as [x | e | e k IH | req k _]; intros w;
    cbn [run start]; [reflexivity | reflexivity | apply IH | reflexivity].
Qed.

(** X22.  However the request settles, the page is ready for the same
    text again: the loading flag is down and, nothing else having happened,
    the Translate button is enabled. *)
Theorem translate_again (w : World) (s : jsstring) (net : Request -> Settled) :
  inputText (ui w) = JStr s ->
  JsString.trim s <> [] ->
  apiKey (ui w) <> [] ->
  translate_disabled (ui (fst (invoke translateText net quiet w))) = Some false.
Proof.
  intros Htext Htrim Hkey. unfold invoke.
  rewrite (run_translateText_ready _ Htext Htrim Hkey).
  unfold translate_disabled, quiet, sent.
  destruct (net (options (ui w)));
    cbn [fst apply_effect set_ui ui isLoading inputText];
    rewrite Htext; cbn [call_trim];
    (destruct (JsString.trim s); [contradiction | reflexivity]).
Qed.

Lemma translate_again_witness :
  translate_disabled
    (ui (fst (invoke translateText (fun _ => Rejected (status_error 429)) quiet
                     ready_world)))
  = Some false.
Proof.
  apply (translate_again ready_world (s := js "Hello")
           (fun _ => Rejected (status_error 429))).
  - reflexivity.
  - vm_compute. discriminate.
  - vm_compute. discriminate.
Defined.


